(** * Cursor, scroll and watcher model of the interactive git status TUI

    A shallow embedding of [igs.py] (class [GitTUI]).  Python integers are
    [Z], Python strings are [string] (characters are 8-bit code points),
    lists are [list].  Everything the program reads from its environment
    (the result of a [git] command, the terminal height, the clock, the
    readiness of the watcher pipe) is an explicit argument of the operation
    that reads it.  Drawing calls have no effect on the fields modelled here
    and are left out; curses attributes (colours) are not modelled.

    The older script [git-tui.py] has the same [_get_ordered_files],
    [_refresh_status] and [parse_git_status] as [igs.py], word for word; its
    list view, which differs, is modelled in [Module GitTuiPy]. *)

From Stdlib Require Import ZArith Ascii String.
From stdpp Require Import base tactics option list strings gmap pretty.

#[local] Open Scope string_scope.
#[local] Open Scope list_scope.
#[local] Open Scope Z_scope.

(** ** Python primitives *)

(** An operation either returns or raises [IndexError] (the only exception
    the modelled code can raise: a list subscript out of range). *)
Inductive result (A : Type) : Type :=
| Ok (a : A)
| IndexError.
Arguments Ok {A} a.
Arguments IndexError {A}.

#[global] Instance result_ret : MRet result := λ A a, Ok a.
#[global] Instance result_bind : MBind result := λ A B k m,
  match m with
  | Ok a => k a
  | IndexError => IndexError
  end.

(** [l[i]]: a negative index counts from the end, an index outside
    [-len(l) .. len(l)-1] raises. *)
Definition py_index {A : Type} (l : list A) (i : Z) : result A :=
  let n := Z.of_nat (length l) in
  let j := if bool_decide (i < 0) then i + n else i in
  if bool_decide (0 ≤ j < n) then
    match l !! Z.to_nat j with
    | Some x => Ok x
    | None => IndexError
    end
  else IndexError.

(** [len(l)] as a Python integer. *)
Definition len {A : Type} (l : list A) : Z := Z.of_nat (length l).

Definition chars (s : string) : list ascii := list_ascii_of_string s.
Definition text (l : list ascii) : string := string_of_list_ascii l.

(** Does [sep] start the character list [l]? *)
Fixpoint starts_with (sep l : list ascii) : bool :=
  match sep, l with
  | [], _ => true
  | _ :: _, [] => false
  | a :: sep', b :: l' => bool_decide (a = b) && starts_with sep' l'
  end.

(** [s.split(sep)] for a non-empty separator: scan from the left, cut at
    every match, resume after it.  [skip] counts the characters of a match
    that are still to be passed over, [cur] is the piece being read, in
    reverse. *)
Fixpoint split_go (sep : list ascii) (skip : nat) (cur l : list ascii)
  : list (list ascii) :=
  match l with
  | [] => [rev cur]
  | c :: l' =>
      match skip with
      | S k => split_go sep k cur l'
      | O =>
          if starts_with sep l
          then rev cur :: split_go sep (length sep - 1) [] l'
          else split_go sep 0 (c :: cur) l'
      end
  end.

Definition py_split (sep s : string) : list string :=
  text <$> split_go (chars sep) 0 [] (chars s).

(** [sep in s]. *)
Fixpoint contains_go (sep l : list ascii) : bool :=
  starts_with sep l ||
  match l with
  | [] => false
  | _ :: l' => contains_go sep l'
  end.

Definition py_contains (sep s : string) : bool := contains_go (chars sep) (chars s).

(** [c.isspace()] on the code points below 256. *)
Definition py_isspace (c : ascii) : bool :=
  let n := nat_of_ascii c in
  bool_decide (n ∈ [9; 10; 11; 12; 13; 28; 29; 30; 31; 32; 133; 160]%nat).

(** [not s.strip()]: nothing is left once the white space is stripped. *)
Definition strip_is_empty (s : string) : bool := forallb py_isspace (chars s).

(** [max] and [min] of Python are [Z.max] and [Z.min]. *)

(** ** GitFile *)

Record GitFile := mkGitFile {
  status : string;
  path : string;
  staged : bool;
}.

#[global] Instance GitFile_eq_dec : EqDecision GitFile.
Proof. solve_decision. Defined.

(** [GitFile.key]: the pair (path, staged). *)
Definition key (f : GitFile) : string * bool := (path f, staged f).

(** ** The result of running a command *)

(** [run_git_command]: (returncode, stdout, stderr); an exception while
    starting the command is reported as return code 1. *)
Record GitResult := mkGitResult {
  returncode : Z;
  stdout : string;
  stderr : string;
}.

(** ** The state of the UI *)

Record GitTUI := mkGitTUI {
  cursor_pos : Z;
  scroll_offset : Z;
  files : list GitFile;
  mode : string;
  diff_content : list string;
  diff_scroll : Z;
  status_message : string;
  watcher_proc : bool;           (* is the inotifywait process running *)
  last_refresh_time : Z;         (* milliseconds *)
  events_during_cooldown : bool;
}.

Definition set_cursor_pos (v : Z) (s : GitTUI) : GitTUI :=
  mkGitTUI v (scroll_offset s) (files s) (mode s) (diff_content s)
    (diff_scroll s) (status_message s) (watcher_proc s)
    (last_refresh_time s) (events_during_cooldown s).

Definition set_scroll_offset (v : Z) (s : GitTUI) : GitTUI :=
  mkGitTUI (cursor_pos s) v (files s) (mode s) (diff_content s)
    (diff_scroll s) (status_message s) (watcher_proc s)
    (last_refresh_time s) (events_during_cooldown s).

Definition set_files (v : list GitFile) (s : GitTUI) : GitTUI :=
  mkGitTUI (cursor_pos s) (scroll_offset s) v (mode s) (diff_content s)
    (diff_scroll s) (status_message s) (watcher_proc s)
    (last_refresh_time s) (events_during_cooldown s).

Definition set_mode (v : string) (s : GitTUI) : GitTUI :=
  mkGitTUI (cursor_pos s) (scroll_offset s) (files s) v (diff_content s)
    (diff_scroll s) (status_message s) (watcher_proc s)
    (last_refresh_time s) (events_during_cooldown s).

Definition set_diff_content (v : list string) (s : GitTUI) : GitTUI :=
  mkGitTUI (cursor_pos s) (scroll_offset s) (files s) (mode s) v
    (diff_scroll s) (status_message s) (watcher_proc s)
    (last_refresh_time s) (events_during_cooldown s).

Definition set_diff_scroll (v : Z) (s : GitTUI) : GitTUI :=
  mkGitTUI (cursor_pos s) (scroll_offset s) (files s) (mode s)
    (diff_content s) v (status_message s) (watcher_proc s)
    (last_refresh_time s) (events_during_cooldown s).

Definition set_status_message (v : string) (s : GitTUI) : GitTUI :=
  mkGitTUI (cursor_pos s) (scroll_offset s) (files s) (mode s)
    (diff_content s) (diff_scroll s) v (watcher_proc s)
    (last_refresh_time s) (events_during_cooldown s).

Definition set_last_refresh_time (v : Z) (s : GitTUI) : GitTUI :=
  mkGitTUI (cursor_pos s) (scroll_offset s) (files s) (mode s)
    (diff_content s) (diff_scroll s) (status_message s) (watcher_proc s)
    v (events_during_cooldown s).

Definition set_events_during_cooldown (v : bool) (s : GitTUI) : GitTUI :=
  mkGitTUI (cursor_pos s) (scroll_offset s) (files s) (mode s)
    (diff_content s) (diff_scroll s) (status_message s) (watcher_proc s)
    (last_refresh_time s) v.

(** [GitTUI.__init__]. *)
Definition init : GitTUI :=
  mkGitTUI 0 0 [] "list" [] 0 "" false 0 false.

(** ** parse_git_status *)

(** The dictionary of [_status_char_to_name]. *)
Definition mapping : gmap ascii string :=
  list_to_map
    [("M"%char, "modified"); ("A"%char, "new file"); ("D"%char, "deleted");
     ("R"%char, "renamed"); ("C"%char, "copied"); ("U"%char, "updated");
     ("?"%char, "untracked")].

(** [mapping.get(char, 'modified')]. *)
Definition _status_char_to_name (char : ascii) : string :=
  default "modified" (mapping !! char).

(** The body of the loop over the lines of the porcelain output: the
    records one line appends to [self.files]. *)
Definition parse_line (line : string) : list GitFile :=
  match chars line with
  | x :: y :: _ :: rest =>
      let path0 := text rest in
      let path :=
        if py_contains " -> " path0
        then List.last (py_split " -> " path0) path0
        else path0 in
      (if bool_decide (x ∉ [" "%char; "?"%char])
       then [mkGitFile (_status_char_to_name x) path true]
       else [])
      ++
      (if bool_decide (y ≠ " "%char) || bool_decide (x = "?"%char)
       then
         [mkGitFile
            (if bool_decide (x = "?"%char) then "untracked"
             else _status_char_to_name y)
            path false]
       else [])
  | _ => []                        (* not line or len(line) < 3 *)
  end.

Definition newline : string := String (ascii_of_nat 10) EmptyString.

(** The record list built from the text of [git status --porcelain]. *)
Definition parse_porcelain (out : string) : list GitFile :=
  if strip_is_empty out then []
  else concat (parse_line <$> py_split newline out).

Definition parse_git_status (r : GitResult) (s : GitTUI) : GitTUI :=
  if bool_decide (returncode r ≠ 0) then
    set_status_message ("Error: " +:+ stderr r) s
  else
    set_files (parse_porcelain (stdout r)) s.

(** ** The flattened order *)

Definition is_untracked (f : GitFile) : Prop := status f = "untracked".

#[global] Instance is_untracked_dec f : Decision (is_untracked f).
Proof. unfold is_untracked. apply _. Defined.

Definition staged_files (fs : list GitFile) : list GitFile :=
  filter (λ f, staged f = true) fs.
Definition unstaged_files (fs : list GitFile) : list GitFile :=
  filter (λ f, staged f = false ∧ ¬ is_untracked f) fs.
Definition untracked_files (fs : list GitFile) : list GitFile :=
  filter is_untracked fs.

(** The three list comprehensions of [_get_ordered_files], concatenated. *)
Definition ordered (fs : list GitFile) : list GitFile :=
  staged_files fs ++ unstaged_files fs ++ untracked_files fs.

(** [_get_ordered_files]: staged, then unstaged, then untracked. *)
Definition _get_ordered_files (s : GitTUI) : list GitFile := ordered (files s).

(** ** The list view: display lines and scroll offset *)

Inductive content :=
| Text (t : string)
| FileLine (f : GitFile).

(** One entry of [display_lines]: (content, attr, file index or None,
    section start or None); the attribute is styling only. *)
Record display_line := mkLine {
  dl_content : content;
  dl_fidx : option Z;
  dl_section : option Z;
}.

(** [for f in fs: display_lines.append((f, None, file_index, section_start));
    file_index += 1], on the pair (display_lines, file_index). *)
Definition append_files (section_start : Z) (fs : list GitFile)
    (acc : list display_line * Z) : list display_line * Z :=
  foldl (λ a f, (a.1 ++ [mkLine (FileLine f) (Some a.2) (Some section_start)],
                 a.2 + 1)) acc fs.

Definition heading (t : string) : display_line := mkLine (Text t) None None.

(** The display lines of [draw_file_list]: every group has its heading,
    also when it is empty, and a blank line separates the groups. *)
Definition build_display_lines (fs : list GitFile) : list display_line :=
  let display_lines := [] in
  let file_index := 0 in
  let section_start := len display_lines in
  let display_lines := display_lines ++ [heading "Changes to be committed:"] in
  let '(display_lines, file_index) :=
    append_files section_start (staged_files fs) (display_lines, file_index) in
  let display_lines := display_lines ++ [heading ""] in
  let section_start := len display_lines in
  let display_lines :=
    display_lines ++ [heading "Changes not staged for commit:"] in
  let '(display_lines, file_index) :=
    append_files section_start (unstaged_files fs) (display_lines, file_index) in
  let display_lines := display_lines ++ [heading ""] in
  let section_start := len display_lines in
  let display_lines := display_lines ++ [heading "Untracked files:"] in
  let '(display_lines, file_index) :=
    append_files section_start (untracked_files fs) (display_lines, file_index) in
  display_lines.

(** The search for the cursor: (cursor_display_line, cursor_section_start),
    both 0 when no line carries the cursor's index. *)
Definition locate_cursor (lines : list display_line) (cursor : Z) : Z * Z :=
  match list_find (λ l, dl_fidx l = Some cursor) lines with
  | Some (i, l) => (Z.of_nat i, default (Z.of_nat i) (dl_section l))
  | None => (0, 0)
  end.

(** The two-way adjustment of [scroll_offset]. *)
Definition adjust_scroll (cursor_display_line cursor_section_start
    visible_height scroll : Z) : Z :=
  if bool_decide (cursor_display_line < scroll) then cursor_section_start
  else if bool_decide (scroll + visible_height ≤ cursor_display_line)
       then cursor_display_line - visible_height + 1
       else scroll.

(** [max(0, min(scroll, max(0, total - visible_height)))]. *)
Definition clamp_scroll (total visible_height scroll : Z) : Z :=
  Z.max 0 (Z.min scroll (Z.max 0 (total - visible_height))).

(** [draw_file_list], as far as it changes the state; [height] is the
    number of rows of the terminal. *)
Definition draw_file_list (height : Z) (s : GitTUI) : GitTUI :=
  let visible_height := height - 4 in
  let display_lines := build_display_lines (files s) in
  let '(cursor_display_line, cursor_section_start) :=
    locate_cursor display_lines (cursor_pos s) in
  let scroll :=
    adjust_scroll cursor_display_line cursor_section_start visible_height
      (scroll_offset s) in
  set_scroll_offset (clamp_scroll (len display_lines) visible_height scroll) s.

(** The display line of the cursor. *)
Definition cursor_display_line (s : GitTUI) : Z :=
  (locate_cursor (build_display_lines (files s)) (cursor_pos s)).1.

(** The heading line recorded for the cursor's group. *)
Definition cursor_section_start (s : GitTUI) : Z :=
  (locate_cursor (build_display_lines (files s)) (cursor_pos s)).2.

(** The rows drawn are [display_lines[scroll_offset:]] cut at
    [visible_height]: the display line [i] is on screen when *)
Definition on_screen (height : Z) (s : GitTUI) (i : Z) : Prop :=
  scroll_offset s ≤ i ≤ scroll_offset s + (height - 4) - 1.

#[global] Instance on_screen_dec height s i : Decision (on_screen height s i).
Proof. unfold on_screen. apply _. Defined.

(** The list view of the older script [git-tui.py]: a heading only for a
    non-empty group, no section start in the lines, two reserved rows. *)
Module GitTuiPy.

Definition append_files (fs : list GitFile)
    (acc : list display_line * Z) : list display_line * Z :=
  foldl (λ a f, (a.1 ++ [mkLine (FileLine f) (Some a.2) None], a.2 + 1)) acc fs.

Definition add_group (title : string) (blank : bool) (fs : list GitFile)
    (acc : list display_line * Z) : list display_line * Z :=
  match fs with
  | [] => acc
  | _ =>
      let '(display_lines, file_index) :=
        append_files fs (acc.1 ++ [heading title], acc.2) in
      (if blank then display_lines ++ [heading ""] else display_lines,
       file_index)
  end.

Definition build_display_lines (fs : list GitFile) : list display_line :=
  let acc := add_group "Changes to be committed:" true (staged_files fs) ([], 0) in
  let acc := add_group "Changes not staged for commit:" true (unstaged_files fs) acc in
  let acc := add_group "Untracked files:" false (untracked_files fs) acc in
  match fs with
  | [] => acc.1 ++ [heading "No changes. Working directory clean."]
  | _ => acc.1
  end.

Definition locate_cursor (lines : list display_line) (cursor : Z) : Z :=
  match list_find (λ l, dl_fidx l = Some cursor) lines with
  | Some (i, _) => Z.of_nat i
  | None => 0
  end.

Definition draw_file_list (height : Z) (s : GitTUI) : GitTUI :=
  let visible_height := height - 2 in
  let display_lines := build_display_lines (files s) in
  let cursor_display_line := locate_cursor display_lines (cursor_pos s) in
  let scroll :=
    if bool_decide (cursor_display_line < scroll_offset s)
    then cursor_display_line
    else if bool_decide (scroll_offset s + visible_height ≤ cursor_display_line)
         then cursor_display_line - visible_height + 1
         else scroll_offset s in
  set_scroll_offset (clamp_scroll (len display_lines) visible_height scroll) s.

End GitTuiPy.

(** ** What one step reads from its environment *)

Record Env := mkEnv {
  height : Z;                  (* rows reported by [stdscr.getmaxyx()] *)
  git_status : GitResult;      (* [git status --porcelain] *)
  git_add : GitResult;         (* [git add -- path] *)
  git_reset : GitResult;       (* [git reset HEAD -- path] *)
  git_restore : GitResult;     (* [git restore -- path] *)
  git_commit : GitResult;      (* [git commit -m msg] *)
  git_diff : GitResult;        (* [git diff [--cached] -- path] *)
  read_file : string + string; (* the text of the file, or of the exception *)
  confirm : bool;              (* the answer to the confirmation dialog *)
  editor : string + string;    (* the message read back, or the exception *)
  add_patch : option string;   (* the exception of [git add -p], if any *)
}.

(** ** Commands on one file *)

Definition get_file_diff (env : Env) (file : GitFile) : list string :=
  if bool_decide (status file = "untracked") then
    match read_file env with
    | inl content => ["New file: " +:+ path file; ""] ++ py_split newline content
    | inr e => ["Cannot read file: " +:+ path file; e]
    end
  else
    let r := git_diff env in
    if bool_decide (returncode r ≠ 0) then ["Error getting diff: " +:+ stderr r]
    else if bool_decide (stdout r ≠ "") then py_split newline (stdout r)
         else ["No changes for " +:+ path file].

Definition stage_file (r : GitResult) (file : GitFile) (s : GitTUI) : GitTUI :=
  if bool_decide (returncode r = 0)
  then set_status_message ("Staged: " +:+ path file) s
  else set_status_message ("Error staging: " +:+ stderr r) s.

Definition unstage_file (r : GitResult) (file : GitFile) (s : GitTUI) : GitTUI :=
  if bool_decide (returncode r = 0)
  then set_status_message ("Unstaged: " +:+ path file) s
  else set_status_message ("Error unstaging: " +:+ stderr r) s.

Definition discard_changes (r : GitResult) (file : GitFile) (s : GitTUI) : GitTUI :=
  if bool_decide (returncode r = 0)
  then set_status_message ("Discarded changes: " +:+ path file) s
  else set_status_message ("Error discarding: " +:+ stderr r) s.

(** ** The diff view *)

(** The title line of the diff view: the record under the cursor, when the
    cursor is before the end of the flattened list.  [ordered[self.cursor_pos]]
    raises when the cursor is below [-len(ordered)]. *)
Definition diff_title (s : GitTUI) : result (option string) :=
  let ordered := _get_ordered_files s in
  if bool_decide (cursor_pos s < len ordered) then
    file ← py_index ordered (cursor_pos s);
    mret (Some ("Diff: " +:+ path file +:+ " (" +:+
                (if staged file then "staged" else "unstaged") +:+ ")"))
  else mret None.

(** [draw_diff_view], as far as it changes the state: the title is looked
    up, which may raise, then the scroll value is clamped. *)
Definition draw_diff_view (height : Z) (s : GitTUI) : result GitTUI :=
  let visible_height := height - 3 in
  title ← diff_title s;
  let max_scroll := Z.max 0 (len (diff_content s) - visible_height) in
  mret (set_diff_scroll (Z.max 0 (Z.min (diff_scroll s) max_scroll)) s).

(** ** Operations on the list *)

(** First position of a record with the given key:
    [for i, f in enumerate(l): if f.key() == k]. *)
Definition find_key (k : string * bool) (l : list GitFile) : option nat :=
  fst <$> list_find (λ f, key f = k) l.

Definition _refresh_status (r : GitResult) (s : GitTUI) : result GitTUI :=
  let old_files := _get_ordered_files s in
  old_key ←
    (if bool_decide (cursor_pos s < len old_files)
     then f ← py_index old_files (cursor_pos s); mret (Some (key f))
     else mret None);
  let s := parse_git_status r s in
  let s :=
    match old_key with
    | Some k =>
        let ordered := _get_ordered_files s in
        match find_key k ordered with
        | Some i => set_cursor_pos (Z.of_nat i) s
        | None =>
            set_cursor_pos (Z.max 0 (Z.min (cursor_pos s) (len ordered - 1))) s
        end
    | None => set_cursor_pos 0 s
    end in
  mret (set_status_message "Refreshed" s).

Definition _toggle_stage_current_file (env : Env) (s : GitTUI) : result GitTUI :=
  let ordered := _get_ordered_files s in
  if bool_decide (len ordered ≤ cursor_pos s) then mret s
  else
    file ← py_index ordered (cursor_pos s);
    next_file_key ←
      (if bool_decide (cursor_pos s + 1 < len ordered)
       then f ← py_index ordered (cursor_pos s + 1); mret (Some (key f))
       else mret None);
    let s :=
      if staged file then unstage_file (git_reset env) file s
      else stage_file (git_add env) file s in
    let s := parse_git_status (git_status env) s in
    let ordered := _get_ordered_files s in
    if bool_decide (len ordered = 0) then mret (set_cursor_pos 0 s)
    else
      match next_file_key ≫= λ k, find_key k ordered with
      | Some i => mret (set_cursor_pos (Z.of_nat i) s)
      | None => mret (set_cursor_pos (Z.min (cursor_pos s) (len ordered - 1)) s)
      end.

Definition _chunk_stage_current_file (env : Env) (s : GitTUI) : result GitTUI :=
  let ordered := _get_ordered_files s in
  if bool_decide (len ordered ≤ cursor_pos s) then mret s
  else
    file ← py_index ordered (cursor_pos s);
    if staged file
    then mret (set_status_message "File is already staged (unstage first)" s)
    else if bool_decide (status file = "untracked")
    then mret (set_status_message "Cannot chunk-stage untracked file" s)
    else
      match add_patch env with
      | Some e => mret (set_status_message ("Error running git add -p: " +:+ e) s)
      | None =>
          let s := parse_git_status (git_status env) s in
          let s :=
            set_cursor_pos
              (Z.min (cursor_pos s) (Z.max 0 (len (_get_ordered_files s) - 1))) s in
          mret (set_status_message ("Chunk staging done: " +:+ path file) s)
      end.

Definition _stage_all (env : Env) (s : GitTUI) : GitTUI :=
  let modified := unstaged_files (files s) in
  match modified with
  | [] => set_status_message "No modified files to stage" s
  | _ =>
      let s := parse_git_status (git_status env) s in
      let s := set_cursor_pos 0 s in
      set_status_message ("Staged " +:+ pretty (length modified) +:+ " file(s)") s
  end.

Definition _discard_current_file (env : Env) (s : GitTUI) : result GitTUI :=
  let ordered := _get_ordered_files s in
  if bool_decide (len ordered ≤ cursor_pos s) then mret s
  else
    file ← py_index ordered (cursor_pos s);
    if staged file
    then mret (set_status_message "Cannot discard staged changes (unstage first)" s)
    else if bool_decide (status file = "untracked")
    then mret (set_status_message "Cannot discard untracked file" s)
    else if negb (confirm env)
    then mret (set_status_message "Cancelled" s)
    else
      let s := discard_changes (git_restore env) file s in
      let s := parse_git_status (git_status env) s in
      let ordered := _get_ordered_files s in
      if bool_decide (len ordered = 0) then mret (set_cursor_pos 0 s)
      else mret (set_cursor_pos (Z.min (cursor_pos s) (len ordered - 1)) s).

Definition show_commit_dialog (env : Env) (s : GitTUI) : GitTUI :=
  match staged_files (files s) with
  | [] => set_status_message "No files staged for commit" s
  | _ =>
      match editor env with
      | inr e => set_status_message ("Error opening editor: " +:+ e) s
      | inl commit_msg =>
          if bool_decide (commit_msg = "")
          then set_status_message "Commit cancelled (empty message)" s
          else
            let r := git_commit env in
            if bool_decide (returncode r = 0) then
              let s := set_status_message "Commit successful!" s in
              let s := parse_git_status (git_status env) s in
              set_cursor_pos 0 s
            else set_status_message ("Commit failed: " +:+ stderr r) s
      end
  end.

Definition _toggle_stage_in_diff (env : Env) (s : GitTUI) : result GitTUI :=
  let ordered := _get_ordered_files s in
  if bool_decide (len ordered ≤ cursor_pos s) then mret (set_mode "list" s)
  else
    file ← py_index ordered (cursor_pos s);
    let current_path := path file in
    let was_staged := staged file in
    let s :=
      if was_staged then unstage_file (git_reset env) file s
      else stage_file (git_add env) file s in
    let s := parse_git_status (git_status env) s in
    let ordered := _get_ordered_files s in
    let new_staged := negb was_staged in
    match list_find (λ f, path f = current_path ∧ staged f = new_staged) ordered with
    | Some (i, f) =>
        let s := set_cursor_pos (Z.of_nat i) s in
        let s := set_diff_content (get_file_diff env f) s in
        mret (set_diff_scroll 0 s)
    | None =>
        let s := set_cursor_pos (Z.max 0 (Z.min (cursor_pos s) (len ordered - 1))) s in
        mret (set_mode "list" s)
    end.

(** ** Keys *)

Definition ord (c : ascii) : Z := Z.of_nat (nat_of_ascii c).

(** The key codes of curses (ncurses' values). *)
Definition KEY_DOWN : Z := 258.
Definition KEY_UP : Z := 259.
Definition KEY_NPAGE : Z := 338.
Definition KEY_PPAGE : Z := 339.
Definition KEY_ENTER : Z := 343.

(** [_handle_list_input]: the new state and whether the loop goes on. *)
Definition _handle_list_input (env : Env) (key : Z) (s : GitTUI)
  : result (GitTUI * bool) :=
  if bool_decide (key ∈ [ord "q"; ord "Q"]) then mret (s, false)
  else if bool_decide (key = KEY_UP) then
    if bool_decide (cursor_pos s > 0)
    then mret (set_status_message "" (set_cursor_pos (cursor_pos s - 1) s), true)
    else mret (s, true)
  else if bool_decide (key = KEY_DOWN) then
    if bool_decide (cursor_pos s < len (files s) - 1)
    then mret (set_status_message "" (set_cursor_pos (cursor_pos s + 1) s), true)
    else mret (s, true)
  else if bool_decide (key = KEY_PPAGE) then
    let page_size := height env - 4 in
    mret (set_status_message ""
            (set_cursor_pos (Z.max 0 (cursor_pos s - page_size)) s), true)
  else if bool_decide (key = KEY_NPAGE) then
    let page_size := height env - 4 in
    mret (set_status_message ""
            (set_cursor_pos (Z.min (len (files s) - 1) (cursor_pos s + page_size)) s),
          true)
  else if bool_decide (key = ord " ") then
    s ← _toggle_stage_current_file env s; mret (s, true)
  else if bool_decide (key ∈ [ord "d"; ord "D"; ord "010"; KEY_ENTER]) then
    if bool_decide (cursor_pos s < len (files s)) then
      let ordered := _get_ordered_files s in
      if bool_decide (cursor_pos s < len ordered) then
        file ← py_index ordered (cursor_pos s);
        let s := set_diff_content (get_file_diff env file) s in
        let s := set_diff_scroll 0 s in
        let s := set_mode "diff" s in
        mret (set_status_message "" s, true)
      else mret (s, true)
    else mret (s, true)
  else if bool_decide (key ∈ [ord "c"; ord "C"]) then
    mret (show_commit_dialog env s, true)
  else if bool_decide (key ∈ [ord "r"; ord "R"]) then
    s ← _refresh_status (git_status env) s; mret (s, true)
  else if bool_decide (key ∈ [ord "a"; ord "A"]) then
    mret (_stage_all env s, true)
  else if bool_decide (key ∈ [ord "p"; ord "P"]) then
    s ← _chunk_stage_current_file env s; mret (s, true)
  else if bool_decide (key ∈ [ord "u"; ord "U"]) then
    s ← _discard_current_file env s; mret (s, true)
  else mret (s, true).

Definition _handle_diff_input (env : Env) (key : Z) (s : GitTUI)
  : result (GitTUI * bool) :=
  let viewable_lines := height env - 3 in
  if bool_decide (key ∈ [ord "q"; ord "Q"; 27]) then
    mret (set_status_message "" (set_mode "list" s), true)
  else if bool_decide (key = KEY_UP) then
    mret (set_diff_scroll (Z.max 0 (diff_scroll s - 1)) s, true)
  else if bool_decide (key = KEY_DOWN) then
    let max_scroll := Z.max 0 (len (diff_content s) - viewable_lines) in
    mret (set_diff_scroll (Z.min (diff_scroll s + 1) max_scroll) s, true)
  else if bool_decide (key = ord " ") then
    s ← _toggle_stage_in_diff env s; mret (s, true)
  else if bool_decide (key = KEY_PPAGE) then
    mret (set_diff_scroll (Z.max 0 (diff_scroll s - viewable_lines)) s, true)
  else if bool_decide (key = KEY_NPAGE) then
    let max_scroll := Z.max 0 (len (diff_content s) - viewable_lines) in
    mret (set_diff_scroll (Z.min (diff_scroll s + viewable_lines) max_scroll) s,
          true)
  else mret (s, true).

(** [handle_input]; [key] is what [getch] returned, -1 on a timeout. *)
Definition handle_input (env : Env) (key : Z) (s : GitTUI)
  : result (GitTUI * bool) :=
  if bool_decide (key = -1) then mret (s, true)
  else if bool_decide (mode s = "list") then _handle_list_input env key s
  else if bool_decide (mode s = "diff") then _handle_diff_input env key s
  else mret (s, true).

(** ** The watcher *)

(** What one call of [_check_watcher] reads: the clock on entry, whether the
    pipe of inotifywait had data, the answer of [git status] if a refresh is
    made, and the clock once the refresh is done.  Times are in
    milliseconds. *)
Record Tick := mkTick {
  now : Z;
  readable : bool;
  tick_status : GitResult;
  after : Z;
}.

(** [cooldown = 0.2], in milliseconds. *)
Definition COOLDOWN : Z := 200.

Definition in_cooldown (tk : Tick) (s : GitTUI) : bool :=
  bool_decide (now tk - last_refresh_time s < COOLDOWN).

(** The refresh made by the watcher: [_refresh_status], then the clock is
    read again and the pending flag cleared. *)
Definition watcher_refresh (tk : Tick) (s : GitTUI) : result (GitTUI * bool) :=
  s ← _refresh_status (tick_status tk) s;
  let s := set_last_refresh_time (after tk) s in
  mret (set_events_during_cooldown false s, true).

(** [_check_watcher]: the new state, and whether [_refresh_status] was
    called. *)
Definition _check_watcher (tk : Tick) (s : GitTUI) : result (GitTUI * bool) :=
  if negb (watcher_proc s) then mret (s, false)
  else
    let in_cooldown := in_cooldown tk s in
    let has_events := readable tk in
    if has_events then
      if negb in_cooldown then watcher_refresh tk s
      else mret (set_events_during_cooldown true s, false)
    else if events_during_cooldown s && negb in_cooldown then watcher_refresh tk s
    else mret (s, false).

(** A sequence of calls of [_check_watcher]: the final state and the times
    ([now]) of the calls that refreshed, oldest first. *)
Fixpoint run_checks (ticks : list Tick) (s : GitTUI) : result (GitTUI * list Z) :=
  match ticks with
  | [] => mret (s, [])
  | tk :: rest =>
      '(s, fired) ← _check_watcher tk s;
      '(s, log) ← run_checks rest s;
      mret (s, if fired : bool then now tk :: log else log)
  end.

(** One turn of the loop of [run]: draw, handle a key, check the watcher. *)
Definition loop_turn (env : Env) (key : Z) (tk : Tick) (s : GitTUI)
  : result (GitTUI * bool) :=
  s ←
    (if bool_decide (mode s = "list") then mret (draw_file_list (height env) s)
     else if bool_decide (mode s = "diff") then draw_diff_view (height env) s
     else mret s);
  '(s, continue) ← handle_input env key s;
  if continue : bool then '(s, _) ← _check_watcher tk s; mret (s, true)
  else mret (s, false).

(** ** Predicates used in the statements *)

(** No record is staged and untracked at once. *)
Definition no_staged_untracked (f : GitFile) : Prop :=
  ¬ (staged f = true ∧ status f = "untracked").

(** The three filters of [_get_ordered_files] as predicates. *)
Definition in_staged (f : GitFile) : Prop := staged f = true.
Definition in_unstaged (f : GitFile) : Prop :=
  staged f = false ∧ status f ≠ "untracked".
Definition in_untracked (f : GitFile) : Prop := status f = "untracked".

(** [a] holds the records of [fs] that satisfy [P], each as often as [fs]
    has it and in the order of [fs]: [a] is the largest subsequence of [fs]
    whose members all satisfy [P]. *)
Definition group_of (P : GitFile → Prop) (fs a : list GitFile) : Prop :=
  a `sublist_of` fs ∧ Forall P a ∧
  ∀ l, l `sublist_of` fs → Forall P l → l `sublist_of` a.

(** [i] is the first position of [l] whose record has key [k]. *)
Definition first_with_key (k : string * bool) (l : list GitFile) (i : nat) : Prop :=
  (∃ f, l !! i = Some f ∧ key f = k) ∧
  ∀ j g, l !! j = Some g → (j < i)%nat → key g ≠ k.

(** No record of [l] has key [k]. *)
Definition key_absent (k : string * bool) (l : list GitFile) : Prop :=
  ∀ g, g ∈ l → key g ≠ k.

(** The file lines one loop of [draw_file_list] appends: file indices
    [start], [start + 1], ... and the section start [sec]. *)
Fixpoint file_lines (start sec : Z) (fs : list GitFile) : list display_line :=
  match fs with
  | [] => []
  | f :: fs' =>
      mkLine (FileLine f) (Some start) (Some sec) :: file_lines (start + 1) sec fs'
  end.

(** The display line of the file with flattened index [c], and the display
    line of the heading of its group. *)
Definition line_of (fs : list GitFile) (c : Z) : Z :=
  if bool_decide (c < len (staged_files fs)) then c + 1
  else if bool_decide (c < len (staged_files fs) + len (unstaged_files fs))
       then c + 3 else c + 5.

Definition heading_of (fs : list GitFile) (c : Z) : Z :=
  if bool_decide (c < len (staged_files fs)) then 0
  else if bool_decide (c < len (staged_files fs) + len (unstaged_files fs))
       then len (staged_files fs) + 2
       else len (staged_files fs) + len (unstaged_files fs) + 4.

(** A group heading: a text line that is not the blank separator. *)
Definition is_heading (l : display_line) : Prop :=
  ∃ t, dl_content l = Text t ∧ t ≠ "" ∧ dl_fidx l = None.

Definition is_file_line (l : display_line) : Prop :=
  ∃ f, dl_content l = FileLine f.

(** The diff view's scroll value is within its range for a terminal of
    [h] rows. *)
Definition diff_scroll_in_range (h : Z) (s : GitTUI) : Prop :=
  0 ≤ diff_scroll s ≤ Z.max 0 (len (diff_content s) - (h - 3)).

(** ** Concrete inputs *)

Definition ok_result (out : string) : GitResult := mkGitResult 0 out "".

(** An environment in which every command succeeds with no output, for a
    terminal of [h] rows. *)
Definition quiet_env (h : Z) : Env :=
  mkEnv h (ok_result "") (ok_result "") (ok_result "") (ok_result "")
    (ok_result "") (ok_result "") (inl "") true (inl "") None.

(** The porcelain text of [n] staged modifications: lines "M  f0", "M  f1", ... *)
Definition staged_porcelain (n : nat) : string :=
  foldr (λ i acc, "M  f" +:+ pretty i +:+ newline +:+ acc) "" (seq 0 n).

(** The state once [parse_git_status] has read that text. *)
Definition with_staged (n : nat) : GitTUI :=
  parse_git_status (ok_result (staged_porcelain n)) init.

(** A diff of five lines on screen. *)
Definition five_lines : GitTUI :=
  set_diff_content ["a"; "b"; "c"; "d"; "e"] (set_mode "diff" init).

(** ** Sequences of watcher calls *)

(** The calls are made at increasing times, none before [t]; the clock read
    at the end of a call is not before the one read on entry. *)
Fixpoint increasing (t : Z) (ticks : list Tick) : Prop :=
  match ticks with
  | [] => True
  | tk :: rest => t ≤ now tk ∧ now tk ≤ after tk ∧ increasing (after tk) rest
  end.

(** Each time of [log] is at least one cooldown after the one before it,
    the first at least one cooldown after [t]. *)
Fixpoint spaced (t : Z) (log : list Z) : Prop :=
  match log with
  | [] => True
  | r :: rest => t + COOLDOWN ≤ r ∧ spaced r rest
  end.

(** The state once [_start_watcher] has started inotifywait in a clean
    working tree. *)
Definition watching : GitTUI :=
  mkGitTUI 0 0 [] "list" [] 0 "" true 0 false.

(** Three calls: an event outside the cooldown, an event 95 ms after the
    refresh, and a quiet call after the cooldown has passed. *)
Definition three_ticks : list Tick :=
  [mkTick 1000 true (ok_result "") 1005;
   mkTick 1100 true (ok_result "") 1100;
   mkTick 1300 false (ok_result "") 1310].

(** [git status] once a.txt has been modified in the working tree. *)
Definition a_modified : GitResult := ok_result " M a.txt".

(** Successive calls are at most [P] apart, the first at most [P] after
    [t]. *)
Fixpoint polled (P t : Z) (ticks : list Tick) : Prop :=
  match ticks with
  | [] => True
  | tk :: rest => now tk ≤ t + P ∧ polled P (now tk) rest
  end.

(** Five calls at most 100 ms apart: an event outside the cooldown; one
    millisecond after the refresh a.txt is modified and the event is seen;
    then three quiet calls, of which the last is the first that is not in the
    cooldown. *)
Definition late_ticks : list Tick :=
  [mkTick 1000 true (ok_result "") 1000;
   mkTick 1001 true a_modified 1001;
   mkTick 1101 false a_modified 1101;
   mkTick 1199 false a_modified 1199;
   mkTick 1299 false a_modified 1300].

(** The same two events, and then no call before 5000. *)
Definition sparse_ticks : list Tick :=
  [mkTick 1000 true (ok_result "") 1000;
   mkTick 1001 true a_modified 1001;
   mkTick 5000 false a_modified 5001].

(** ** Further parts of the program *)

(** The values of the dictionary of [_status_char_to_name]. *)
Definition status_names : list string :=
  ["modified"; "new file"; "deleted"; "renamed"; "copied"; "updated";
   "untracked"].

Definition tab : ascii := ascii_of_nat 9.

(** [text.replace('\t', '    ')]. *)
Definition replace_tabs (l : list ascii) : list ascii :=
  l ≫= λ c, if bool_decide (c = tab) then chars "    " else [c].

(** [_safe_addstr] on a screen of [height] rows and [width] columns.
    [stdscr.addstr(row, col, text, attr)] is the terminal's: it changes the
    screen and returns, or raises [curses.error], possibly after a part of
    the text is written.  It is an argument here: the screen after the call,
    and whether the call raised.  [_safe_addstr] gives the screen it leaves;
    an error of [addstr] is caught and dropped. *)
Definition _safe_addstr {Screen : Type}
    (addstr : Z → Z → string → Screen → Screen * bool)
    (height width row col : Z) (t : string) (scr : Screen) : Screen :=
  if bool_decide (row < 0) || bool_decide (height ≤ row) || bool_decide (width ≤ col)
  then scr
  else
    let max_len := width - col - 1 in
    if bool_decide (max_len ≤ 0) then scr
    else
      let safe_text := text (replace_tabs (take (Z.to_nat max_len) (chars t))) in
      match addstr row col safe_text scr with
      | (scr', false) => scr'
      | (scr', true) => scr'    (* except curses.error: pass *)
      end.

(** A terminal that records the calls it accepts, newest first, and raises
    without writing when the position is outside the screen. *)
Definition log_addstr (height width : Z) (row col : Z) (t : string)
    (scr : list (Z * Z * string)) : list (Z * Z * string) * bool :=
  if bool_decide (0 ≤ row < height ∧ 0 ≤ col < width)
  then ((row, col, t) :: scr, false)
  else (scr, true).

(** [f"{s:10}"]: the text padded with spaces on the right to 10 characters,
    never cut. *)
Definition ljust10 (s : string) : string :=
  s +:+ text (replicate (10 - String.length s) " "%char).

(** The text [_draw_file_line] draws for the record with flattened index
    [file_index]. *)
Definition file_line_text (cursor : Z) (file_index : Z) (file : GitFile) : string :=
  let is_selected := bool_decide (file_index = cursor) in
  let cursor_marker := if is_selected then "> " else "  " in
  let status_text := ljust10 (status file) in
  cursor_marker +:+ status_text +:+ " " +:+ path file.

(** The cursor is inside the record list, or at 0 when the list is empty,
    and the list is one the parser can have built. *)
Definition cursor_ok (s : GitTUI) : Prop :=
  0 ≤ cursor_pos s < Z.max (len (files s)) 1 ∧
  Forall no_staged_untracked (files s).

(** What one turn of the loop reads. *)
Record Turn := mkTurn {
  turn_env : Env;
  turn_key : Z;
  turn_tick : Tick;
}.

(** The loop of [run]: turns are made until [handle_input] answers False;
    the state the loop leaves, and the turns that were not run. *)
Fixpoint run_loop (turns : list Turn) (s : GitTUI) : result (GitTUI * list Turn) :=
  match turns with
  | [] => mret (s, [])
  | t :: rest =>
      '(s, continue) ← loop_turn (turn_env t) (turn_key t) (turn_tick t) s;
      if continue : bool then run_loop rest s else mret (s, rest)
  end.

(** The three fields of the watcher are the same in [s] and [s']. *)
Definition same_watcher (s s' : GitTUI) : Prop :=
  watcher_proc s' = watcher_proc s ∧
  last_refresh_time s' = last_refresh_time s ∧
  events_during_cooldown s' = events_during_cooldown s.

(** Page Down is not pressed, and Page Up only on a terminal of four rows
    or more. *)
Definition no_page_trouble (t : Turn) : Prop :=
  turn_key t ≠ KEY_NPAGE ∧
  (turn_key t = KEY_PPAGE → 4 ≤ height (turn_env t)).

(** The commit is made: something is staged, the editor gave a message
    that is not empty, and [git commit] returned 0. *)
Definition commit_made (env : Env) (s : GitTUI) : Prop :=
  staged_files (files s) ≠ [] ∧
  (∃ msg, editor env = inl msg ∧ msg ≠ "") ∧
  returncode (git_commit env) = 0.

(** [i] is the first position of [l] whose record has the path [p] and the
    staged flag [b]. *)
Definition first_with_path_flag (p : string) (b : bool) (l : list GitFile)
    (i : nat) : Prop :=
  (∃ g, l !! i = Some g ∧ path g = p ∧ staged g = b) ∧
  ∀ j g, l !! j = Some g → (j < i)%nat → ¬ (path g = p ∧ staged g = b).

(** [i] is the first position of [l] whose record has the path [p]. *)
Definition first_with_path (p : string) (l : list GitFile) (i : nat) : Prop :=
  (∃ g, l !! i = Some g ∧ path g = p) ∧
  ∀ j g, l !! j = Some g → (j < i)%nat → path g ≠ p.

(** The key handling of git-tui.py where it differs from igs.py. *)
Module GitTuiPyInput.

(** [_toggle_stage_current_file] of git-tui.py: the cursor follows the path
    of the toggled file. *)
Definition _toggle_stage_current_file (env : Env) (s : GitTUI) : result GitTUI :=
  let ordered := _get_ordered_files s in
  if bool_decide (len ordered ≤ cursor_pos s) then mret s
  else
    file ← py_index ordered (cursor_pos s);
    let current_path := path file in
    let s :=
      if staged file then unstage_file (git_reset env) file s
      else stage_file (git_add env) file s in
    let s := parse_git_status (git_status env) s in
    let ordered := _get_ordered_files s in
    match list_find (λ f, path f = current_path) ordered with
    | Some (i, _) => mret (set_cursor_pos (Z.of_nat i) s)
    | None =>
        mret (set_cursor_pos (Z.max 0 (Z.min (cursor_pos s) (len ordered - 1))) s)
    end.

End GitTuiPyInput.

(** ** What is drawn *)

(** A slice bound of Python: a negative bound counts from the end, and
    every bound is brought into [0 .. len]. *)
Definition slice_bound (n i : Z) : Z :=
  if bool_decide (i < 0) then Z.max 0 (n + i) else Z.min i n.


(** [l[a:]]. *)
Definition py_slice_from {A : Type} (l : list A) (a : Z) : list A :=
  drop (Z.to_nat (slice_bound (len l) a)) l.

(** The display lines the loop at the end of [draw_file_list] draws:
    [display_lines[scroll_offset:]], left at the first index that is not
    below [visible_height]. *)
Definition list_rows (h : Z) (s : GitTUI) : list display_line :=
  take (Z.to_nat (h - 4))
    (py_slice_from (build_display_lines (files s)) (scroll_offset s)).


(** ** The confirmation dialog *)

Definition slen (s : string) : Z := Z.of_nat (String.length s).

(** The width of the box of [show_confirm_dialog] on a screen of [width]
    columns. *)
Definition dialog_width (title filename : string) (width : Z) : Z :=
  let prompt := "(y/n)" in
  let max_content := Z.max (Z.max (slen title) (slen filename)) (slen prompt) in
  Z.min (max_content + 6) (width - 4).

(** [start_x]. *)
Definition dialog_start_x (width dialog_width : Z) : Z :=
  (width - dialog_width) `div` 2.

(** [display_name]: the file name, or "..." and its tail when it is too
    long for the box. *)
Definition display_name (dialog_width : Z) (filename : string) : string :=
  if bool_decide (slen filename < dialog_width - 4) then filename
  else "..." +:+ text (py_slice_from (chars filename) (- (dialog_width - 7))).

(** The column at which a text is centred in the box. *)
Definition centred_col (start_x dialog_width : Z) (t : string) : Z :=
  start_x + (dialog_width - slen t) `div` 2.

(** * Properties *)

Example parse_example :
  parse_porcelain ("MM a.txt" +:+ newline +:+ "?? b.txt" +:+ newline +:+
                   "R  old -> new" +:+ newline) =
  [mkGitFile "modified" "a.txt" true; mkGitFile "modified" "a.txt" false;
   mkGitFile "untracked" "b.txt" false; mkGitFile "renamed" "new" true].
Proof. vm_compute. reflexivity. Qed.


(** ** Python primitives *)

Lemma elem_of_4 (x a b c d : Z) :
  x ∈ [a; b; c; d] → x = a ∨ x = b ∨ x = c ∨ x = d.
Proof. rewrite !elem_of_cons, elem_of_nil. tauto. Qed.

Lemma not_elem_of_2 (x a b : Z) : x ≠ a → x ≠ b → x ∉ [a; b].
Proof. rewrite !elem_of_cons, elem_of_nil. tauto. Qed.

Lemma py_index_Ok {A} (l : list A) (i : Z) :
  0 ≤ i < len l → ∃ x, py_index l i = Ok x ∧ l !! Z.to_nat i = Some x.
Proof.
  intros Hi. unfold py_index, len in *.
  rewrite (bool_decide_eq_false_2 (i < 0)) by lia. cbv zeta.
  rewrite bool_decide_eq_true_2 by lia.
  destruct (lookup_lt_is_Some_2 l (Z.to_nat i)) as [x Hx]; [lia|].
  exists x. by rewrite Hx.
Qed.

Lemma py_index_returns {A} (l : list A) (i : Z) :
  - len l ≤ i < len l → ∃ x, py_index l i = Ok x.
Proof.
  intros Hi. unfold py_index, len in *. cbv zeta.
  destruct (decide (i < 0)) as [Hneg|Hpos].
  - rewrite (bool_decide_eq_true_2 (i < 0)) by done.
    rewrite bool_decide_eq_true_2 by lia.
    destruct (lookup_lt_is_Some_2 l (Z.to_nat (i + Z.of_nat (length l))))
      as [x Hx]; [lia|].
    exists x. by rewrite Hx.
  - rewrite (bool_decide_eq_false_2 (i < 0)) by done.
    rewrite bool_decide_eq_true_2 by lia.
    destruct (lookup_lt_is_Some_2 l (Z.to_nat i)) as [x Hx]; [lia|].
    exists x. by rewrite Hx.
Qed.

Lemma py_index_raises {A} (l : list A) (i : Z) :
  i < - len l → py_index l i = IndexError.
Proof.
  intros Hi. unfold py_index, len in *. cbv zeta.
  rewrite (bool_decide_eq_true_2 (i < 0)) by lia.
  by rewrite bool_decide_eq_false_2 by lia.
Qed.

Lemma find_key_Some k l i :
  find_key k l = Some i ↔ first_with_key k l i.
Proof.
  unfold find_key, first_with_key. rewrite fmap_Some. split.
  - intros [[i' f] [Hf ->]]. apply list_find_Some in Hf as (?&?&Hleast).
    split; [by exists f|]. intros j g ???. by eapply Hleast.
  - intros [[f [??]] Hleast]. exists (i, f). split; [|done].
    apply list_find_Some. split_and!; [done..|]. intros j g ???.
    by eapply Hleast.
Qed.

Lemma find_key_None k l : find_key k l = None ↔ key_absent k l.
Proof.
  unfold find_key, key_absent. rewrite fmap_None, list_find_None, Forall_forall.
  done.
Qed.

(** ** The parser and the three groups *)

Lemma status_char_untracked c :
  _status_char_to_name c = "untracked" → c = "?"%char.
Proof.
  unfold _status_char_to_name. destruct (mapping !! c) as [n|] eqn:E; simpl.
  - intros ->. unfold mapping in E. apply elem_of_list_to_map_2 in E.
    repeat (apply elem_of_cons in E as [E|E]; [by simplify_eq|]).
    by apply elem_of_nil in E.
  - discriminate.
Qed.

Lemma parse_line_wf line : Forall no_staged_untracked (parse_line line).
Proof.
  unfold parse_line. destruct (chars line) as [|x [|y [|z rest]]]; try constructor.
  apply Forall_app. split.
  - case_bool_decide as Hx; constructor; [|constructor].
    intros [_ Hu]. simpl in Hu. apply status_char_untracked in Hu.
    subst. apply Hx. apply list_elem_of_further, list_elem_of_here.
  - destruct (_ || _); constructor; [|constructor]. by intros [? _].
Qed.

Lemma parse_porcelain_wf out : Forall no_staged_untracked (parse_porcelain out).
Proof.
  unfold parse_porcelain. destruct (strip_is_empty out); [constructor|].
  apply Forall_concat, Forall_fmap, Forall_forall. intros line _.
  apply parse_line_wf.
Qed.

Lemma parse_git_status_wf r s :
  Forall no_staged_untracked (files s) →
  Forall no_staged_untracked (files (parse_git_status r s)).
Proof.
  intros. unfold parse_git_status. case_bool_decide; simpl; [done|].
  apply parse_porcelain_wf.
Qed.

Lemma ordered_cons f fs :
  ordered (f :: fs) =
    (if decide (in_staged f) then [f] else []) ++ staged_files fs ++
    (if decide (in_unstaged f) then [f] else []) ++ unstaged_files fs ++
    (if decide (in_untracked f) then [f] else []) ++ untracked_files fs.
Proof.
  unfold ordered, staged_files, unstaged_files, untracked_files.
  rewrite !filter_cons. unfold in_staged, in_unstaged, in_untracked, is_untracked.
  repeat case_decide; simpl; try done; tauto.
Qed.

Lemma ordered_Permutation fs :
  Forall no_staged_untracked fs → ordered fs ≡ₚ fs.
Proof.
  induction 1 as [|f fs Hf _ IH]; [done|].
  rewrite ordered_cons. rewrite <-IH at 4. unfold ordered.
  unfold no_staged_untracked, in_staged, in_unstaged, in_untracked in *.
  destruct (staged f) eqn:Hs; repeat case_decide; simpl;
    try done; try (exfalso; intuition congruence).
  - by rewrite <-Permutation_middle.
  - rewrite (assoc _ (staged_files fs)), <-Permutation_middle.
    by rewrite <-(assoc _ (staged_files fs)).
Qed.

Lemma ordered_length fs :
  Forall no_staged_untracked fs → len (ordered fs) = len fs.
Proof. intros H. unfold len. by rewrite (ordered_Permutation fs H). Qed.

(** C10. Every record list the parser builds has no record that is staged
    and untracked; each of its records passes exactly one of the three
    filters of the flattened order; and the flattened list is a permutation
    of the record list, of the same length. *)
Theorem parsed_records_partition (out : string) :
  let fs := parse_porcelain out in
  Forall (λ f, ¬ (staged f = true ∧ status f = "untracked")) fs ∧
  (∀ f, f ∈ fs →
     (in_staged f ∧ ¬ in_unstaged f ∧ ¬ in_untracked f) ∨
     (¬ in_staged f ∧ in_unstaged f ∧ ¬ in_untracked f) ∨
     (¬ in_staged f ∧ ¬ in_unstaged f ∧ in_untracked f)) ∧
  ordered fs ≡ₚ fs ∧
  length (ordered fs) = length fs.
Proof.
  intros fs. pose proof (parse_porcelain_wf out) as Hwf. fold fs in Hwf.
  split_and!.
  - done.
  - intros f Hf. rewrite Forall_forall in Hwf. specialize (Hwf f Hf).
    unfold no_staged_untracked, in_staged, in_unstaged, in_untracked in *.
    destruct (staged f); destruct (decide (status f = "untracked"));
      intuition congruence.
  - by apply ordered_Permutation.
  - by rewrite (ordered_Permutation fs Hwf).
Qed.

(** ** The flattened order *)

Lemma filter_group_of (P : GitFile → Prop) `{!∀ f, Decision (P f)}
    (fs : list GitFile) :
  group_of P fs (filter P fs).
Proof.
  split_and!.
  - apply sublist_filter.
  - apply Forall_forall. intros f Hf. by apply list_elem_of_filter in Hf as [? _].
  - intros l Hl. induction Hl as [|x l1 l2 _ IH|x l1 l2 _ IH]; intros HP.
    + apply sublist_nil_l.
    + apply Forall_cons in HP as [? ?]. rewrite filter_cons_True by done.
      apply sublist_skip; auto.
    + rewrite filter_cons. case_decide; [apply sublist_cons|]; auto.
Qed.

Lemma filter_lookup_holds (P : GitFile → Prop) `{!∀ f, Decision (P f)}
    (fs : list GitFile) (i : nat) f :
  filter P fs !! i = Some f → P f.
Proof.
  intros Hf%list_elem_of_lookup_2. by apply list_elem_of_filter in Hf as [? _].
Qed.

Lemma ordered_staged_first fs i j f g :
  ordered fs !! i = Some f → ordered fs !! j = Some g →
  staged f = true → status f ≠ "untracked" → staged g = false →
  (i < j)%nat.
Proof.
  unfold ordered, staged_files, unstaged_files, untracked_files.
  intros Hi Hj Hf Hu Hg.
  apply lookup_app_Some in Hi as [Hi|[_ Hi]].
  - apply lookup_lt_Some in Hi.
    apply lookup_app_Some in Hj as [Hj|[? _]]; [|lia].
    apply filter_lookup_holds in Hj. congruence.
  - apply lookup_app_Some in Hi as [Hi|[_ Hi]];
      apply filter_lookup_holds in Hi.
    + destruct Hi. congruence.
    + by destruct Hu.
Qed.

(** ** The display lines *)

Lemma append_files_eq sec fs dl i :
  append_files sec fs (dl, i) = (dl ++ file_lines i sec fs, i + len fs).
Proof.
  unfold append_files, len. revert dl i.
  induction fs as [|f fs IH]; intros dl i; simpl.
  - by rewrite app_nil_r, Z.add_0_r.
  - rewrite IH, <-app_assoc. simpl. f_equal. lia.
Qed.

Lemma build_display_lines_eq fs :
  build_display_lines fs =
    [heading "Changes to be committed:"] ++
    file_lines 0 0 (staged_files fs) ++
    [heading ""; heading "Changes not staged for commit:"] ++
    file_lines (len (staged_files fs)) (len (staged_files fs) + 2)
      (unstaged_files fs) ++
    [heading ""; heading "Untracked files:"] ++
    file_lines (len (staged_files fs) + len (unstaged_files fs))
      (len (staged_files fs) + len (unstaged_files fs) + 4)
      (untracked_files fs).
Proof.
  unfold build_display_lines. rewrite !append_files_eq.
  assert (Hlen : ∀ i s l, length (file_lines i s l) = length l).
  { intros i s l. revert i. induction l; intros; simpl; auto. }
  unfold len. rewrite !length_app, !Hlen. simpl length.
  rewrite <-!app_assoc. simpl.
  repeat f_equal; lia.
Qed.

Lemma file_lines_length start sec fs :
  length (file_lines start sec fs) = length fs.
Proof. revert start. induction fs; intros; simpl; auto. Qed.

Lemma file_lines_lookup start sec fs (k : nat) l :
  file_lines start sec fs !! k = Some l ↔
  ∃ f, fs !! k = Some f ∧ l = mkLine (FileLine f) (Some (start + Z.of_nat k)) (Some sec).
Proof.
  revert start k. induction fs as [|f fs IH]; intros start k; simpl.
  - split; [done|]. by intros (?&?&?).
  - destruct k as [|k]; simpl.
    + rewrite Z.add_0_r. split; [intros [= <-]; eauto|].
      by intros (?&[= <-]&->).
    + rewrite IH. replace (start + 1 + Z.of_nat k) with (start + Z.of_nat (S k)) by lia.
      done.
Qed.

(** Every display line that carries a file index [c] is the line of the
    record at position [c] of the flattened order, at [line_of]. *)
Lemma display_line_of_index fs (n : nat) l c :
  build_display_lines fs !! n = Some l → dl_fidx l = Some c →
  ∃ f, 0 ≤ c ∧ ordered fs !! Z.to_nat c = Some f ∧
       l = mkLine (FileLine f) (Some c) (Some (heading_of fs c)) ∧
       Z.of_nat n = line_of fs c.
Proof.
  rewrite build_display_lines_eq. unfold ordered, line_of, heading_of, len.
  intros Hn Hc.
  apply lookup_app_Some in Hn as [Hn|[? Hn]].
  { destruct n; simplify_eq/=. }
  apply lookup_app_Some in Hn as [Hn|[? Hn]].
  { apply file_lines_lookup in Hn as (f&Hf&->). simpl in *. simplify_eq.
    pose proof (lookup_lt_Some _ _ _ Hf).
    exists f. rewrite !bool_decide_eq_true_2 by lia. split_and!; [lia| |done|lia].
    apply lookup_app_l_Some. by replace (Z.to_nat _) with (n - 1)%nat by lia. }
  rewrite file_lines_length in *.
  apply lookup_app_Some in Hn as [Hn|[? Hn]].
  { destruct (n - _ - _)%nat as [|[|]]; simplify_eq/=. }
  apply lookup_app_Some in Hn as [Hn|[? Hn]].
  { apply file_lines_lookup in Hn as (f&Hf&->). simpl in *. simplify_eq.
    pose proof (lookup_lt_Some _ _ _ Hf).
    exists f. rewrite (bool_decide_eq_false_2 (_ < Z.of_nat (length (staged_files fs)))) by lia.
    rewrite !bool_decide_eq_true_2 by lia. split_and!; [lia| |done|lia].
    rewrite lookup_app_r by lia. apply lookup_app_l_Some.
    rewrite <-Hf. f_equal. lia. }
  rewrite file_lines_length in *.
  apply lookup_app_Some in Hn as [Hn|[? Hn]].
  { destruct (n - _ - _ - _ - _)%nat as [|[|]]; simplify_eq/=. }
  apply file_lines_lookup in Hn as (f&Hf&->). simpl in *. simplify_eq.
  pose proof (lookup_lt_Some _ _ _ Hf).
  exists f. rewrite !bool_decide_eq_false_2 by lia. split_and!; [lia| |done|lia].
  rewrite !lookup_app_r by lia. rewrite <-Hf. f_equal. lia.
Qed.

(** The record at position [c] of the flattened order is drawn on the
    display line [line_of], with its index and the heading of its group. *)
Lemma display_line_at_index fs (c : nat) f :
  ordered fs !! c = Some f →
  build_display_lines fs !! Z.to_nat (line_of fs (Z.of_nat c)) =
    Some (mkLine (FileLine f) (Some (Z.of_nat c))
            (Some (heading_of fs (Z.of_nat c)))).
Proof.
  rewrite build_display_lines_eq. unfold ordered, line_of, heading_of, len.
  intros Hc.
  apply lookup_app_Some in Hc as [Hc|[? Hc]].
  { pose proof (lookup_lt_Some _ _ _ Hc).
    rewrite !bool_decide_eq_true_2 by lia.
    rewrite lookup_app_r by (simpl; lia). apply lookup_app_l_Some.
    apply file_lines_lookup. exists f. split.
    - rewrite <-Hc. f_equal. simpl. lia.
    - do 2 f_equal. simpl. lia. }
  apply lookup_app_Some in Hc as [Hc|[? Hc]].
  { pose proof (lookup_lt_Some _ _ _ Hc).
    rewrite (bool_decide_eq_false_2 (_ < Z.of_nat (length (staged_files fs)))) by lia.
    rewrite !bool_decide_eq_true_2 by lia.
    rewrite lookup_app_r by (simpl; lia).
    rewrite lookup_app_r by (rewrite file_lines_length; simpl; lia).
    rewrite lookup_app_r by (rewrite file_lines_length; simpl; lia).
    apply lookup_app_l_Some. rewrite file_lines_length. simpl length.
    apply file_lines_lookup. exists f. split.
    - rewrite <-Hc. f_equal. lia.
    - do 2 f_equal. lia. }
  pose proof (lookup_lt_Some _ _ _ Hc).
  rewrite !bool_decide_eq_false_2 by lia.
  rewrite lookup_app_r by (simpl; lia).
  rewrite lookup_app_r by (rewrite file_lines_length; simpl; lia).
  rewrite lookup_app_r by (rewrite file_lines_length; simpl; lia).
  rewrite lookup_app_r by (rewrite !file_lines_length; simpl; lia).
  rewrite lookup_app_r by (rewrite !file_lines_length; simpl; lia).
  rewrite !file_lines_length. simpl length.
  apply file_lines_lookup. exists f. split.
  - rewrite <-Hc. f_equal. lia.
  - do 2 f_equal. lia.
Qed.

Lemma build_display_lines_len fs :
  len (build_display_lines fs) = len (ordered fs) + 5.
Proof.
  rewrite build_display_lines_eq. unfold ordered, len.
  rewrite !length_app, !file_lines_length. simpl. lia.
Qed.

Lemma ordered_len fs :
  len (ordered fs) =
    len (staged_files fs) + len (unstaged_files fs) + len (untracked_files fs).
Proof. unfold ordered, len. rewrite !length_app. lia. Qed.

Lemma line_of_bounds fs c :
  0 ≤ c < len (ordered fs) →
  0 ≤ heading_of fs c < line_of fs c ∧
  line_of fs c < len (build_display_lines fs).
Proof.
  rewrite build_display_lines_len, ordered_len.
  unfold line_of, heading_of, len. intros. repeat case_bool_decide; lia.
Qed.

Lemma locate_cursor_valid fs c :
  0 ≤ c < len (ordered fs) →
  locate_cursor (build_display_lines fs) c = (line_of fs c, heading_of fs c).
Proof.
  intros Hc. pose proof (line_of_bounds fs c Hc) as [Hb _].
  destruct (lookup_lt_is_Some_2 (ordered fs) (Z.to_nat c)) as [f Hf];
    [unfold len in Hc; lia|].
  pose proof (display_line_at_index fs _ f Hf) as Hline.
  rewrite Z2Nat.id in Hline by lia.
  assert (list_find (λ l, dl_fidx l = Some c) (build_display_lines fs) =
          Some (Z.to_nat (line_of fs c),
                mkLine (FileLine f) (Some c) (Some (heading_of fs c)))) as Hfind.
  { apply list_find_Some. split_and!; [exact Hline|done|].
    intros j y Hj Hlt Hy.
    destruct (display_line_of_index fs j y c Hj Hy) as (?&?&?&?&?). lia. }
  unfold locate_cursor. rewrite Hfind. simpl. f_equal. lia.
Qed.

Lemma locate_cursor_invalid fs c :
  ¬ (0 ≤ c < len (ordered fs)) →
  locate_cursor (build_display_lines fs) c = (0, 0).
Proof.
  intros Hc. unfold locate_cursor.
  destruct (list_find _ _) as [[n l]|] eqn:E; [|done].
  apply list_find_Some in E as (Hn&Hl&_).
  destruct (display_line_of_index fs n l c Hn Hl) as (f&?&Hf&_).
  apply lookup_lt_Some in Hf. unfold len in Hc. lia.
Qed.

Lemma heading_line fs c :
  0 ≤ c < len (ordered fs) →
  ∃ l, build_display_lines fs !! Z.to_nat (heading_of fs c) = Some l ∧ is_heading l.
Proof.
  rewrite ordered_len, build_display_lines_eq. unfold heading_of, len. intros Hc.
  case_bool_decide; [|case_bool_decide].
  - eexists. split; [done|]. by eexists.
  - rewrite lookup_app_r by (simpl; lia).
    rewrite lookup_app_r by (rewrite file_lines_length; simpl; lia).
    rewrite file_lines_length. simpl length.
    replace (_ - _ - _)%nat with 1%nat by lia.
    eexists. split; [done|]. by eexists.
  - rewrite lookup_app_r by (simpl; lia).
    rewrite lookup_app_r by (rewrite file_lines_length; simpl; lia).
    rewrite lookup_app_r by (rewrite file_lines_length; simpl; lia).
    rewrite lookup_app_r by (rewrite !file_lines_length; simpl; lia).
    rewrite !file_lines_length. simpl length.
    replace (_ - _ - _ - _ - _)%nat with 1%nat by lia.
    eexists. split; [done|]. by eexists.
Qed.

Lemma file_lines_below_heading fs c j :
  0 ≤ c < len (ordered fs) →
  heading_of fs c < j ≤ line_of fs c →
  ∃ l, build_display_lines fs !! Z.to_nat j = Some l ∧ is_file_line l.
Proof.
  intros Hc Hj.
  set (c' := c - (line_of fs c - j)).
  assert (0 ≤ c' < len (ordered fs) ∧ line_of fs c' = j) as [Hc' Hline].
  { subst c'. revert Hc Hj. rewrite ordered_len. unfold line_of, heading_of, len.
    intros. repeat case_bool_decide; lia. }
  destruct (lookup_lt_is_Some_2 (ordered fs) (Z.to_nat c')) as [f Hf];
    [unfold len in Hc'; lia|].
  pose proof (display_line_at_index fs _ f Hf) as H.
  rewrite Z2Nat.id, Hline in H by lia.
  eexists. split; [exact H|]. by eexists.
Qed.

(** C7. The flattened order is the staged records, then the unstaged
    tracked ones, then the untracked ones; each group holds exactly the
    records of the input that pass its filter, in the order of the input.  A
    staged tracked record comes before every unstaged record, so a partly
    staged file is listed twice, staged entry first.  The positions of this
    order are the file indices the list view attaches to its lines, that is
    the index space of the cursor. *)
Theorem get_ordered_files_order (s : GitTUI) :
  ∃ a b c,
    _get_ordered_files s = a ++ b ++ c ∧
    group_of in_staged (files s) a ∧
    group_of in_unstaged (files s) b ∧
    group_of in_untracked (files s) c ∧
    (∀ (i j : nat) f g,
       _get_ordered_files s !! i = Some f →
       _get_ordered_files s !! j = Some g →
       staged f = true → status f ≠ "untracked" → staged g = false →
       (i < j)%nat) ∧
    (∀ (i : nat) f,
       _get_ordered_files s !! i = Some f ↔
       ∃ (n : nat) sec,
         build_display_lines (files s) !! n =
           Some (mkLine (FileLine f) (Some (Z.of_nat i)) sec)).
Proof.
  exists (staged_files (files s)), (unstaged_files (files s)),
    (untracked_files (files s)).
  split_and!.
  - done.
  - apply (filter_group_of in_staged).
  - apply (filter_group_of in_unstaged).
  - apply (filter_group_of in_untracked).
  - apply ordered_staged_first.
  - intros i f. unfold _get_ordered_files. split.
    + intros Hf. eexists _, _. by apply display_line_at_index.
    + intros (n&sec&Hn).
      destruct (display_line_of_index _ _ _ (Z.of_nat i) Hn eq_refl)
        as (f'&_&Hf'&Heq&_).
      rewrite Nat2Z.id in Hf'. by simplify_eq.
Qed.

Example partly_staged_file_order :
  ordered (parse_porcelain ("MM a.txt" +:+ newline)) =
  [mkGitFile "modified" "a.txt" true; mkGitFile "modified" "a.txt" false].
Proof. vm_compute. reflexivity. Qed.

(** ** Scrolling the list view *)

Lemma draw_file_list_scroll h s :
  scroll_offset (draw_file_list h s) =
    clamp_scroll (len (build_display_lines (files s))) (h - 4)
      (adjust_scroll (cursor_display_line s) (cursor_section_start s) (h - 4)
         (scroll_offset s)).
Proof.
  unfold draw_file_list, cursor_display_line, cursor_section_start.
  by destruct (locate_cursor _ _).
Qed.

Lemma draw_file_list_files h s : files (draw_file_list h s) = files s.
Proof. unfold draw_file_list. by destruct (locate_cursor _ _). Qed.

Lemma draw_file_list_cursor h s : cursor_pos (draw_file_list h s) = cursor_pos s.
Proof. unfold draw_file_list. by destruct (locate_cursor _ _). Qed.

(** C5. When the cursor's display line is above the scroll offset, the
    offset is set to the display line of the heading of the cursor's group:
    that line is a heading, it is above the cursor's line and only file lines
    lie between the two.  The clamp that follows leaves this value alone
    whenever the offset on entry was within its range, and in every case the
    heading is on screen once the view has a row. *)
Theorem scroll_up_reveals_heading (h : Z) (s : GitTUI) :
  0 ≤ cursor_pos s < len (_get_ordered_files s) →
  cursor_display_line s < scroll_offset s →
  let lines := build_display_lines (files s) in
  let visible_height := h - 4 in
  let heading := cursor_section_start s in
  (0 ≤ heading < cursor_display_line s ∧
   (∃ l, lines !! Z.to_nat heading = Some l ∧ is_heading l) ∧
   (∀ j, heading < j ≤ cursor_display_line s →
         ∃ l, lines !! Z.to_nat j = Some l ∧ is_file_line l)) ∧
  adjust_scroll (cursor_display_line s) heading visible_height (scroll_offset s)
    = heading ∧
  scroll_offset (draw_file_list h s) =
    Z.min heading (Z.max 0 (len lines - visible_height)) ∧
  (scroll_offset s ≤ Z.max 0 (len lines - visible_height) →
   scroll_offset (draw_file_list h s) = heading) ∧
  (1 ≤ visible_height → on_screen h (draw_file_list h s) heading).
Proof.
  intros Hc Hup lines vh heading. unfold _get_ordered_files in Hc.
  assert (Hloc := locate_cursor_valid (files s) (cursor_pos s) Hc).
  assert (Hcdl : cursor_display_line s = line_of (files s) (cursor_pos s))
    by (unfold cursor_display_line; by rewrite Hloc).
  assert (Hhd : heading = heading_of (files s) (cursor_pos s))
    by (unfold heading, cursor_section_start; by rewrite Hloc).
  destruct (line_of_bounds (files s) (cursor_pos s) Hc) as [Hb Htot].
  fold lines in Htot.
  assert (Hadj : adjust_scroll (cursor_display_line s) heading vh
                   (scroll_offset s) = heading).
  { unfold adjust_scroll. by rewrite bool_decide_eq_true_2. }
  assert (Hfin : scroll_offset (draw_file_list h s) =
                 Z.min heading (Z.max 0 (len lines - vh))).
  { rewrite draw_file_list_scroll. fold lines vh heading. rewrite Hadj.
    unfold clamp_scroll. lia. }
  split_and!.
  - lia.
  - lia.
  - rewrite Hhd. by apply heading_line.
  - intros j Hj. apply (file_lines_below_heading (files s) (cursor_pos s)); [done|].
    lia.
  - done.
  - done.
  - intros. rewrite Hfin. lia.
  - intros. unfold on_screen. rewrite Hfin. fold vh. lia.
Qed.

(** The older script [git-tui.py] scrolls up to the cursor's own line. *)
Lemma GitTuiPy_scroll_up h s :
  let lines := GitTuiPy.build_display_lines (files s) in
  let cursor_line := GitTuiPy.locate_cursor lines (cursor_pos s) in
  cursor_line < scroll_offset s →
  scroll_offset (GitTuiPy.draw_file_list h s) =
    clamp_scroll (len lines) (h - 2) cursor_line.
Proof.
  intros lines cursor_line Hup. unfold GitTuiPy.draw_file_list.
  fold lines. fold cursor_line. by rewrite bool_decide_eq_true_2.
Qed.

(** Where [draw_file_list] does keep the cursor on screen: the view has a
    row, and either the cursor was not above the offset or its group's
    heading is less than a screen above it. *)
Lemma draw_file_list_contains_cursor h s :
  1 ≤ h - 4 →
  0 ≤ cursor_pos s < len (_get_ordered_files s) →
  scroll_offset s ≤ cursor_display_line s ∨
    cursor_display_line s - cursor_section_start s < h - 4 →
  on_screen h (draw_file_list h s) (cursor_display_line (draw_file_list h s)).
Proof.
  intros Hvh Hc Hcase. unfold _get_ordered_files in Hc.
  assert (Hloc := locate_cursor_valid (files s) (cursor_pos s) Hc).
  destruct (line_of_bounds (files s) (cursor_pos s) Hc) as [Hb Htot].
  assert (Hsame : cursor_display_line (draw_file_list h s) = cursor_display_line s).
  { unfold cursor_display_line. by rewrite draw_file_list_files, draw_file_list_cursor. }
  rewrite Hsame. unfold on_screen. rewrite draw_file_list_scroll.
  unfold cursor_display_line, cursor_section_start in *. rewrite Hloc in *.
  simpl in *. unfold clamp_scroll, adjust_scroll.
  repeat case_bool_decide; lia.
Qed.

(** C5, at a concrete state: three staged files, the cursor on the second
    one, the window scrolled past it. *)
Lemma scroll_up_reveals_heading_witness :
  let s := set_scroll_offset 3 (set_cursor_pos 1 (with_staged 3)) in
  0 ≤ cursor_pos s < len (_get_ordered_files s) ∧
  cursor_display_line s < scroll_offset s ∧
  scroll_offset (draw_file_list 6 s) = cursor_section_start s.
Proof.
  intros s.
  assert (H1 : 0 ≤ cursor_pos s < len (_get_ordered_files s)) by (by vm_compute).
  assert (H2 : cursor_display_line s < scroll_offset s) by (by vm_compute).
  split; [exact H1|]. split; [exact H2|].
  apply (scroll_up_reveals_heading 6 s H1 H2). by vm_compute.
Defined.

(** C6. A terminal of 24 rows and 41 staged files: with the cursor on file
    21 the drawn window is lines 22 to 41 and drawing changes nothing; one
    key up later [draw_file_list] scrolls to the heading, line 0, and the
    cursor's line 21 is outside the window of lines 0 to 19. *)
Theorem draw_file_list_loses_cursor :
  let s0 := set_scroll_offset 22 (set_cursor_pos 21 (with_staged 41)) in
  draw_file_list 24 s0 = s0 ∧
  on_screen 24 s0 (cursor_display_line s0) ∧
  ∃ s1,
    _handle_list_input (quiet_env 24) KEY_UP s0 = Ok (s1, true) ∧
    0 ≤ cursor_pos s1 < len (_get_ordered_files s1) ∧
    cursor_display_line (draw_file_list 24 s1) = 21 ∧
    scroll_offset (draw_file_list 24 s1) = 0 ∧
    ¬ on_screen 24 (draw_file_list 24 s1)
        (cursor_display_line (draw_file_list 24 s1)).
Proof.
  intros s0. split_and!.
  - by vm_compute.
  - by vm_compute.
  - eexists. split; [by vm_compute|]. split_and!; try by vm_compute.
    unfold on_screen. vm_compute. intros [_ H]. by apply H.
Qed.

(** C2. In a clean working tree (no records, cursor 0) the key Page Down
    sets the cursor to -1, and the next refresh raises [IndexError]. *)
Theorem page_down_on_empty_list :
  files init = [] ∧ cursor_pos init = 0 ∧
  ∃ s1,
    _handle_list_input (quiet_env 24) KEY_NPAGE init = Ok (s1, true) ∧
    files s1 = [] ∧
    cursor_pos s1 = -1 ∧
    _refresh_status (ok_result "") s1 = IndexError.
Proof.
  split_and!; [done..|]. eexists. split; [by vm_compute|]. by vm_compute.
Qed.

(** On a list that is not empty and a terminal of four rows or more the
    cursor keys keep the cursor inside the list. *)
Lemma cursor_keys_keep_range env key s :
  key ∈ [KEY_UP; KEY_DOWN; KEY_PPAGE; KEY_NPAGE] →
  0 ≤ height env - 4 →
  0 ≤ cursor_pos s < len (files s) →
  ∃ s', _handle_list_input env key s = Ok (s', true) ∧
        files s' = files s ∧
        0 ≤ cursor_pos s' < len (files s').
Proof.
  intros Hkey Hh Hc.
  assert (Hsel := elem_of_4 _ _ _ _ _ Hkey).
  clear Hkey. destruct Hsel as [-> | [-> | [-> | ->]]].
  - replace (_handle_list_input env KEY_UP s) with
      (if bool_decide (cursor_pos s > 0)
       then Ok (set_status_message "" (set_cursor_pos (cursor_pos s - 1) s), true)
       else Ok (s, true)) by reflexivity.
    case_bool_decide; (eexists; split; [done|]); simpl; split; (done || lia).
  - replace (_handle_list_input env KEY_DOWN s) with
      (if bool_decide (cursor_pos s < len (files s) - 1)
       then Ok (set_status_message "" (set_cursor_pos (cursor_pos s + 1) s), true)
       else Ok (s, true)) by reflexivity.
    case_bool_decide; (eexists; split; [done|]); simpl; split; (done || lia).
  - replace (_handle_list_input env KEY_PPAGE s) with
      (Ok (set_status_message ""
             (set_cursor_pos (Z.max 0 (cursor_pos s - (height env - 4))) s), true))
      by reflexivity.
    eexists; split; [done|]; simpl; split; (done || lia).
  - replace (_handle_list_input env KEY_NPAGE s) with
      (Ok (set_status_message ""
             (set_cursor_pos
                (Z.min (len (files s) - 1) (cursor_pos s + (height env - 4))) s),
           true)) by reflexivity.
    eexists; split; [done|]; simpl; split; (done || lia).
Qed.

(** ** Commands that fail *)

(** C9. When [git status] returns a non-zero code, [parse_git_status]
    writes the error into the status message and changes nothing else: the
    records, the cursor and every other field are as before.  A failed
    [git add] or [git reset] likewise changes the status message only. *)
Theorem failed_command_keeps_model (r : GitResult) (f : GitFile) (s : GitTUI) :
  returncode r ≠ 0 →
  parse_git_status r s = set_status_message ("Error: " +:+ stderr r) s ∧
  files (parse_git_status r s) = files s ∧
  cursor_pos (parse_git_status r s) = cursor_pos s ∧
  _get_ordered_files (parse_git_status r s) = _get_ordered_files s ∧
  stage_file r f s = set_status_message ("Error staging: " +:+ stderr r) s ∧
  files (stage_file r f s) = files s ∧
  cursor_pos (stage_file r f s) = cursor_pos s ∧
  unstage_file r f s = set_status_message ("Error unstaging: " +:+ stderr r) s ∧
  files (unstage_file r f s) = files s ∧
  cursor_pos (unstage_file r f s) = cursor_pos s.
Proof.
  intros Hr. unfold parse_git_status, stage_file, unstage_file, _get_ordered_files.
  rewrite bool_decide_eq_true_2 by done.
  rewrite bool_decide_eq_false_2 by done. done.
Qed.

Lemma failed_command_keeps_model_witness :
  let r := mkGitResult 128 "" "fatal: not a git repository" in
  let f := mkGitFile "modified" "a.txt" false in
  returncode r ≠ 0 ∧
  files (parse_git_status r (with_staged 3)) = files (with_staged 3) ∧
  cursor_pos (stage_file r f (with_staged 3)) = cursor_pos (with_staged 3).
Proof.
  intros r f.
  assert (H : returncode r ≠ 0) by (by vm_compute).
  split; [exact H|].
  pose proof (failed_command_keeps_model r f (with_staged 3) H) as (_&H1&_&_&_&_&H2&_).
  by split.
Defined.

(** ** Refreshing the list *)

Lemma parse_git_status_cursor r s :
  cursor_pos (parse_git_status r s) = cursor_pos s.
Proof. unfold parse_git_status. by case_bool_decide. Qed.

Lemma parse_git_status_files r s :
  files (parse_git_status r s) =
    if bool_decide (returncode r = 0) then parse_porcelain (stdout r) else files s.
Proof. unfold parse_git_status. by repeat case_bool_decide. Qed.

Lemma refresh_status_on_file r s old :
  0 ≤ cursor_pos s →
  _get_ordered_files s !! Z.to_nat (cursor_pos s) = Some old →
  _refresh_status r s =
    Ok (set_status_message "Refreshed"
          (let s1 := parse_git_status r s in
           match find_key (key old) (_get_ordered_files s1) with
           | Some i => set_cursor_pos (Z.of_nat i) s1
           | None =>
               set_cursor_pos
                 (Z.max 0 (Z.min (cursor_pos s1) (len (_get_ordered_files s1) - 1)))
                 s1
           end)).
Proof.
  intros Hc Hold. pose proof (lookup_lt_Some _ _ _ Hold) as Hlt.
  unfold _refresh_status.
  rewrite bool_decide_eq_true_2 by (unfold len; lia).
  destruct (py_index_Ok (_get_ordered_files s) (cursor_pos s)) as (f&->&Hf);
    [unfold len; lia|].
  by simplify_eq/=.
Qed.

Lemma refresh_status_past_end r s :
  len (_get_ordered_files s) ≤ cursor_pos s →
  _refresh_status r s =
    Ok (set_status_message "Refreshed" (set_cursor_pos 0 (parse_git_status r s))).
Proof.
  intros Hc. unfold _refresh_status. by rewrite bool_decide_eq_false_2 by lia.
Qed.

(** With a cursor that is not negative a refresh never raises, leaves the
    cursor inside the new list (at 0 when that is empty) and does not touch
    the watcher's fields. *)
Lemma refresh_status_total r s :
  0 ≤ cursor_pos s →
  ∃ s', _refresh_status r s = Ok s' ∧
        0 ≤ cursor_pos s' < Z.max (len (_get_ordered_files s')) 1 ∧
        watcher_proc s' = watcher_proc s ∧
        last_refresh_time s' = last_refresh_time s ∧
        events_during_cooldown s' = events_during_cooldown s.
Proof.
  intros Hc.
  assert (Hw : ∀ r s, watcher_proc (parse_git_status r s) = watcher_proc s ∧
                      last_refresh_time (parse_git_status r s) = last_refresh_time s ∧
                      events_during_cooldown (parse_git_status r s) =
                        events_during_cooldown s).
  { intros. unfold parse_git_status. by case_bool_decide. }
  destruct (Hw r s) as (?&?&?).
  destruct (decide (cursor_pos s < len (_get_ordered_files s))) as [Hlt|Hge].
  - destruct (lookup_lt_is_Some_2 (_get_ordered_files s) (Z.to_nat (cursor_pos s)))
      as [old Hold]; [unfold len in Hlt; lia|].
    rewrite (refresh_status_on_file r s old Hc Hold). eexists. split; [done|].
    cbv zeta. destruct (find_key _ _) as [i|] eqn:E; simpl.
    + apply find_key_Some in E as [[g [Hg _]] _]. apply lookup_lt_Some in Hg.
      unfold _get_ordered_files, len in *. simpl in *.
      split_and!; [lia|lia|done..].
    + unfold _get_ordered_files, len in *. simpl in *.
      rewrite parse_git_status_cursor. split_and!; [lia|lia|done..].
  - rewrite refresh_status_past_end by lia. eexists. split; [done|].
    unfold _get_ordered_files, len in *. simpl in *.
    split_and!; [lia|lia|done..].
Qed.

(** C1. A refresh from a cursor on a record: the record list becomes the
    parsed one (it stays as it was when [git status] fails); if the key of
    the old record occurs in the new flattened order, the cursor goes to the
    first position with that key; if it does not, the cursor is
    [max 0 (min old_cursor (len new_records - 1))]; on an empty list it
    is 0. *)
Theorem refresh_status_cursor (r : GitResult) (s : GitTUI) :
  Forall no_staged_untracked (files s) →
  0 ≤ cursor_pos s < len (_get_ordered_files s) →
  ∃ s' old,
    _refresh_status r s = Ok s' ∧
    _get_ordered_files s !! Z.to_nat (cursor_pos s) = Some old ∧
    files s' =
      (if bool_decide (returncode r = 0) then parse_porcelain (stdout r)
       else files s) ∧
    ((∃ g, g ∈ _get_ordered_files s' ∧ key g = key old) →
     ∃ i : nat, first_with_key (key old) (_get_ordered_files s') i ∧
                cursor_pos s' = Z.of_nat i) ∧
    (key_absent (key old) (_get_ordered_files s') →
     cursor_pos s' = Z.max 0 (Z.min (cursor_pos s) (len (files s') - 1))) ∧
    (files s' = [] → cursor_pos s' = 0).
Proof.
  intros Hwf Hc.
  destruct (lookup_lt_is_Some_2 (_get_ordered_files s) (Z.to_nat (cursor_pos s)))
    as [old Hold]; [unfold len in Hc; lia|].
  rewrite (refresh_status_on_file r s old (proj1 Hc) Hold).
  eexists _, old. split; [done|]. split; [done|]. cbv zeta.
  set (s1 := parse_git_status r s).
  assert (Hlen : len (_get_ordered_files s1) = len (files s1)).
  { apply ordered_length. by apply parse_git_status_wf. }
  assert (Hcur : cursor_pos s1 = cursor_pos s) by apply parse_git_status_cursor.
  assert (Hfiles : files s1 = if bool_decide (returncode r = 0)
                              then parse_porcelain (stdout r) else files s)
    by apply parse_git_status_files.
  destruct (find_key (key old) (_get_ordered_files s1)) as [i|] eqn:E; simpl.
  - apply find_key_Some in E. split_and!.
    + done.
    + intros _. by exists i.
    + intros Habs. destruct E as [[g [Hg Hk]] _].
      apply list_elem_of_lookup_2 in Hg. by destruct (Habs g Hg).
    + intros Hnil. destruct E as [[g [Hg _]] _].
      unfold _get_ordered_files in Hg. simpl in Hg, Hnil. rewrite Hnil in Hg.
      by destruct i.
  - apply find_key_None in E. split_and!.
    + done.
    + intros (g&Hg&Hk). by destruct (E g Hg).
    + intros _. by rewrite Hlen, Hcur.
    + intros Hnil. rewrite Hlen, Hnil. unfold len. simpl. lia.
Qed.

Lemma refresh_status_cursor_witness :
  let s := set_cursor_pos 2 (with_staged 3) in
  let r := ok_result (staged_porcelain 2) in
  Forall no_staged_untracked (files s) ∧
  0 ≤ cursor_pos s < len (_get_ordered_files s) ∧
  ∃ s', _refresh_status r s = Ok s' ∧ files s' = parse_porcelain (stdout r).
Proof.
  intros s r.
  assert (H1 : Forall no_staged_untracked (files s)) by apply parse_porcelain_wf.
  assert (H2 : 0 ≤ cursor_pos s < len (_get_ordered_files s)) by (by vm_compute).
  split; [exact H1|]. split; [exact H2|].
  destruct (refresh_status_cursor r s H1 H2) as (s'&old&Hrun&_&Hfiles&_).
  exists s'. split; [exact Hrun|exact Hfiles].
Defined.

Example refresh_status_clamps :
  ∃ s', _refresh_status (ok_result (staged_porcelain 2))
          (set_cursor_pos 2 (with_staged 3)) = Ok s' ∧ cursor_pos s' = 1.
Proof. eexists. split; by vm_compute. Qed.

(** ** Toggling the selected file *)

Lemma stage_unstage_frame r f s :
  (files (stage_file r f s) = files s ∧ cursor_pos (stage_file r f s) = cursor_pos s) ∧
  (files (unstage_file r f s) = files s ∧ cursor_pos (unstage_file r f s) = cursor_pos s).
Proof. unfold stage_file, unstage_file. by repeat case_bool_decide. Qed.

(** The state on which the cursor is placed after a toggle: the command has
    run and the status has been parsed again. *)
Lemma toggle_stage_on_file env s file :
  0 ≤ cursor_pos s →
  _get_ordered_files s !! Z.to_nat (cursor_pos s) = Some file →
  _toggle_stage_current_file env s =
    Ok (let s2 :=
          parse_git_status (git_status env)
            (if staged file then unstage_file (git_reset env) file s
             else stage_file (git_add env) file s) in
        if bool_decide (len (_get_ordered_files s2) = 0) then set_cursor_pos 0 s2
        else
          match (key <$> _get_ordered_files s !! Z.to_nat (cursor_pos s + 1))
                  ≫= λ k, find_key k (_get_ordered_files s2) with
          | Some i => set_cursor_pos (Z.of_nat i) s2
          | None =>
              set_cursor_pos
                (Z.min (cursor_pos s2) (len (_get_ordered_files s2) - 1)) s2
          end).
Proof.
  intros Hc Hfile. pose proof (lookup_lt_Some _ _ _ Hfile) as Hlt.
  unfold _toggle_stage_current_file.
  rewrite bool_decide_eq_false_2 by (unfold len; lia).
  destruct (py_index_Ok (_get_ordered_files s) (cursor_pos s)) as (f&->&Hf);
    [unfold len; lia|].
  simplify_eq/=.
  destruct (decide (cursor_pos s + 1 < len (_get_ordered_files s))) as [Hnext|Hnext].
  - rewrite (bool_decide_eq_true_2 _ Hnext).
    destruct (py_index_Ok (_get_ordered_files s) (cursor_pos s + 1))
      as (nf&->&Hnf); [unfold len in *; lia|].
    rewrite Hnf. simpl.
    case_bool_decide; [done|]. by destruct (find_key _ _).
  - rewrite (bool_decide_eq_false_2 _ Hnext).
    rewrite (lookup_ge_None_2 (_get_ordered_files s)) by (unfold len in *; lia).
    simpl. by case_bool_decide.
Qed.

(** C3. Toggling the file under the cursor: the key of the record just
    below it, if there is one, is looked up in the list parsed after the
    command, and the cursor goes to its first position; when there was no
    record below, or its key is gone, the cursor is the smaller of the old
    cursor and the new last index; when the new list is empty it is 0. *)
Theorem toggle_stage_cursor (env : Env) (s : GitTUI) :
  0 ≤ cursor_pos s < len (_get_ordered_files s) →
  ∃ s',
    _toggle_stage_current_file env s = Ok s' ∧
    files s' =
      (if bool_decide (returncode (git_status env) = 0)
       then parse_porcelain (stdout (git_status env)) else files s) ∧
    let below := _get_ordered_files s !! Z.to_nat (cursor_pos s + 1) in
    let new := _get_ordered_files s' in
    (∀ next, below = Some next → new ≠ [] →
       (∃ g, g ∈ new ∧ key g = key next) →
       ∃ i : nat, first_with_key (key next) new i ∧ cursor_pos s' = Z.of_nat i) ∧
    (below = None ∨ (∃ next, below = Some next ∧ key_absent (key next) new) →
     new ≠ [] →
     cursor_pos s' = Z.min (cursor_pos s) (len new - 1)) ∧
    (new = [] → cursor_pos s' = 0).
Proof.
  intros Hc.
  destruct (lookup_lt_is_Some_2 (_get_ordered_files s) (Z.to_nat (cursor_pos s)))
    as [file Hfile]; [unfold len in Hc; lia|].
  rewrite (toggle_stage_on_file env s file (proj1 Hc) Hfile).
  eexists. split; [done|]. cbv zeta.
  set (s1 := if staged file then unstage_file (git_reset env) file s
             else stage_file (git_add env) file s).
  assert (files s1 = files s ∧ cursor_pos s1 = cursor_pos s) as [Hf1 Hc1].
  { subst s1. destruct (staged file); apply stage_unstage_frame. }
  set (s2 := parse_git_status (git_status env) s1).
  assert (Hc2 : cursor_pos s2 = cursor_pos s)
    by (subst s2; by rewrite parse_git_status_cursor).
  assert (Hf2 : files s2 = if bool_decide (returncode (git_status env) = 0)
                           then parse_porcelain (stdout (git_status env))
                           else files s).
  { subst s2. rewrite parse_git_status_files. by rewrite Hf1. }
  assert (Hlen0 : len (_get_ordered_files s2) = 0 ↔ _get_ordered_files s2 = []).
  { unfold len. destruct (_get_ordered_files s2); simpl; split; (done || lia). }
  destruct (decide (len (_get_ordered_files s2) = 0)) as [Hempty|Hempty];
    [rewrite (bool_decide_eq_true_2 _ Hempty)
    |rewrite (bool_decide_eq_false_2 _ Hempty)].
  { apply Hlen0 in Hempty. unfold _get_ordered_files in *. simpl.
    split_and!; done. }
  destruct (_get_ordered_files s !! Z.to_nat (cursor_pos s + 1)) as [nf|] eqn:Hbelow;
    simpl.
  - destruct (find_key (key nf) (_get_ordered_files s2)) as [i|] eqn:E;
      unfold _get_ordered_files in *; simpl.
    + apply find_key_Some in E. split_and!.
      * done.
      * intros next [= <-] _ _. by exists i.
      * intros [?|(next&[= <-]&Habs)] _; [done|].
        destruct E as [[g [Hg Hk]] _]. apply list_elem_of_lookup_2 in Hg.
        by destruct (Habs g Hg).
      * intros Hnil. by apply Hlen0 in Hnil.
    + apply find_key_None in E. split_and!.
      * done.
      * intros next [= <-] _ (g&Hg&Hk). by destruct (E g Hg).
      * intros _ _. by rewrite Hc2.
      * intros Hnil. by apply Hlen0 in Hnil.
  - unfold _get_ordered_files in *; simpl. split_and!.
    + done.
    + intros next [=].
    + intros _ _. by rewrite Hc2.
    + intros Hnil. by apply Hlen0 in Hnil.
Qed.

Lemma toggle_stage_cursor_witness :
  let s := set_cursor_pos 0 (with_staged 3) in
  let env := quiet_env 24 in
  0 ≤ cursor_pos s < len (_get_ordered_files s) ∧
  ∃ s', _toggle_stage_current_file env s = Ok s' ∧ files s' = [].
Proof.
  intros s env.
  assert (H : 0 ≤ cursor_pos s < len (_get_ordered_files s)) by (by vm_compute).
  split; [exact H|].
  destruct (toggle_stage_cursor env s H) as (s'&Hrun&Hfiles&_).
  exists s'. split; [exact Hrun|exact Hfiles].
Defined.

Example toggle_moves_to_next_file :
  let env := mkEnv 24 (ok_result (" M f0" +:+ newline +:+ staged_porcelain 0
                                  +:+ "M  f1" +:+ newline +:+ "M  f2" +:+ newline))
               (ok_result "") (ok_result "") (ok_result "") (ok_result "")
               (ok_result "") (inl "") true (inl "") None in
  ∃ s', _toggle_stage_current_file env
          (set_cursor_pos 0
             (parse_git_status
                (ok_result ("M  f0" +:+ newline +:+ "M  f1" +:+ newline +:+
                            "M  f2" +:+ newline)) init)) = Ok s' ∧
        _get_ordered_files s' =
          [mkGitFile "modified" "f1" true; mkGitFile "modified" "f2" true;
           mkGitFile "modified" "f0" false] ∧
        cursor_pos s' = 0.
Proof. eexists. split_and!; by vm_compute. Qed.

(** ** The diff view *)

Ltac step_cases H :=
  repeat first
    [ progress simplify_eq/=
    | progress unfold mret, result_ret, mbind, result_bind in H
    | match type of H with
      | context [bool_decide ?P] => destruct (bool_decide P)
      | context [py_index ?l ?i] => destruct (py_index l i)
      | context [match ?x with _ => _ end] => destruct x
      end ].

(** [draw_diff_view] returns unless the cursor is below [-len(ordered)],
    where the lookup of the title raises; what it changes is the scroll
    value. *)
Lemma draw_diff_view_cases h s :
  match draw_diff_view h s with
  | Ok s' =>
      - len (_get_ordered_files s) ≤ cursor_pos s ∧
      s' = set_diff_scroll
             (Z.max 0 (Z.min (diff_scroll s)
                         (Z.max 0 (len (diff_content s) - (h - 3))))) s
  | IndexError => cursor_pos s < - len (_get_ordered_files s)
  end.
Proof.
  unfold draw_diff_view, diff_title. cbv zeta.
  destruct (decide (cursor_pos s < len (_get_ordered_files s))) as [Hlt|Hge].
  - rewrite bool_decide_eq_true_2 by done.
    destruct (decide (cursor_pos s < - len (_get_ordered_files s))) as [Hout|Hin].
    + by rewrite py_index_raises.
    + destruct (py_index_returns (_get_ordered_files s) (cursor_pos s)) as [f ->];
        [lia|].
      simpl. split; [lia|done].
  - rewrite bool_decide_eq_false_2 by done. simpl. split; [unfold len in *; lia|done].
Qed.

Lemma draw_diff_view_returns h s :
  - len (_get_ordered_files s) ≤ cursor_pos s →
  draw_diff_view h s =
    Ok (set_diff_scroll
          (Z.max 0 (Z.min (diff_scroll s)
                      (Z.max 0 (len (diff_content s) - (h - 3))))) s).
Proof.
  intros Hc. pose proof (draw_diff_view_cases h s) as H.
  destruct (draw_diff_view h s) as [s'|]; [|lia]. by destruct H as [_ ->].
Qed.

Lemma parse_git_status_diff r s :
  diff_content (parse_git_status r s) = diff_content s ∧
  diff_scroll (parse_git_status r s) = diff_scroll s.
Proof. unfold parse_git_status. by case_bool_decide. Qed.

Lemma commands_diff r f s :
  diff_content (stage_file r f s) = diff_content s ∧
  diff_content (unstage_file r f s) = diff_content s ∧
  diff_content (discard_changes r f s) = diff_content s.
Proof.
  unfold stage_file, unstage_file, discard_changes. by repeat case_bool_decide.
Qed.

Ltac frame_diff :=
  repeat case_match; simpl;
  rewrite ?(proj1 (parse_git_status_diff _ _));
  rewrite ?(proj1 (commands_diff _ _ _)), ?(proj1 (proj2 (commands_diff _ _ _))),
    ?(proj2 (proj2 (commands_diff _ _ _)));
  try done.

Lemma refresh_status_diff r s s' :
  _refresh_status r s = Ok s' → diff_content s' = diff_content s.
Proof. unfold _refresh_status. intros H. step_cases H; frame_diff. Qed.

Lemma toggle_stage_diff env s s' :
  _toggle_stage_current_file env s = Ok s' → diff_content s' = diff_content s.
Proof. unfold _toggle_stage_current_file. intros H. step_cases H; frame_diff. Qed.

Lemma chunk_stage_diff env s s' :
  _chunk_stage_current_file env s = Ok s' → diff_content s' = diff_content s.
Proof. unfold _chunk_stage_current_file. intros H. step_cases H; frame_diff. Qed.

Lemma discard_diff env s s' :
  _discard_current_file env s = Ok s' → diff_content s' = diff_content s.
Proof. unfold _discard_current_file. intros H. step_cases H; frame_diff. Qed.

Lemma stage_all_diff env s : diff_content (_stage_all env s) = diff_content s.
Proof. unfold _stage_all. frame_diff. Qed.

Lemma commit_dialog_diff env s :
  diff_content (show_commit_dialog env s) = diff_content s.
Proof. unfold show_commit_dialog. repeat case_bool_decide; frame_diff. Qed.

Lemma toggle_in_diff_reset env s s' :
  _toggle_stage_in_diff env s = Ok s' →
  diff_content s' = diff_content s ∨ diff_scroll s' = 0.
Proof.
  unfold _toggle_stage_in_diff. intros H.
  step_cases H; simpl; auto; left; frame_diff.
Qed.

Ltac leaf_diff :=
  let H := fresh "H" in
  let E := fresh "E" in
  intros H; unfold mbind, result_bind, mret, result_ret in H; simpl in H;
  try (match type of H with
       | context [match ?x with _ => _ end] => destruct x eqn:E
       end);
  simplify_eq;
  first
    [ by left
    | by right
    | left;
      first
        [ apply stage_all_diff
        | apply commit_dialog_diff
        | eapply toggle_stage_diff; eassumption
        | eapply refresh_status_diff; eassumption
        | eapply chunk_stage_diff; eassumption
        | eapply discard_diff; eassumption ]
    | eapply toggle_in_diff_reset; eassumption ].

(** Whatever key is handled, in either mode: the diff content is the one
    from before, or the scroll value is 0. *)
Lemma handle_input_diff_reset env key s s' b :
  handle_input env key s = Ok (s', b) →
  diff_content s' = diff_content s ∨ diff_scroll s' = 0.
Proof.
  unfold handle_input, _handle_list_input, _handle_diff_input.
  repeat case_bool_decide; leaf_diff.
Qed.

Lemma handle_diff_input_up env s :
  _handle_diff_input env KEY_UP s =
    Ok (set_diff_scroll (Z.max 0 (diff_scroll s - 1)) s, true).
Proof. reflexivity. Qed.

Lemma handle_diff_input_down env s :
  _handle_diff_input env KEY_DOWN s =
    Ok (set_diff_scroll
          (Z.min (diff_scroll s + 1)
             (Z.max 0 (len (diff_content s) - (height env - 3)))) s, true).
Proof. reflexivity. Qed.

Lemma handle_diff_input_page_up env s :
  _handle_diff_input env KEY_PPAGE s =
    Ok (set_diff_scroll (Z.max 0 (diff_scroll s - (height env - 3))) s, true).
Proof. reflexivity. Qed.

Lemma handle_diff_input_page_down env s :
  _handle_diff_input env KEY_NPAGE s =
    Ok (set_diff_scroll
          (Z.min (diff_scroll s + (height env - 3))
             (Z.max 0 (len (diff_content s) - (height env - 3)))) s, true).
Proof. reflexivity. Qed.

(** C8, the claim as stated fails on two inputs.  With a scroll value above
    the range (100 on a diff of five lines, 24 rows) the key Up gives 99,
    still above the range; on a terminal of two rows, from the value 0 that
    is within range, the key Page Down gives -1. *)
Lemma diff_scroll_step_leaves_range :
  (∃ s', _handle_diff_input (quiet_env 24) KEY_UP (set_diff_scroll 100 five_lines)
           = Ok (s', true) ∧
         diff_scroll s' = 99 ∧ ¬ diff_scroll_in_range 24 s') ∧
  (diff_scroll_in_range 2 five_lines ∧
   ∃ s', _handle_diff_input (quiet_env 2) KEY_NPAGE five_lines = Ok (s', true) ∧
         diff_scroll s' = -1 ∧ ¬ diff_scroll_in_range 2 s').
Proof.
  split; [|split].
  - eexists. split; [by vm_compute|]. split; [by vm_compute|].
    unfold diff_scroll_in_range. vm_compute. intros [_ H]. by apply H.
  - by vm_compute.
  - eexists. split; [by vm_compute|]. split; [by vm_compute|].
    unfold diff_scroll_in_range. vm_compute. intros [H _]. by apply H.
Qed.

(** C8, amended.  Drawing the diff view leaves the scroll value within
    [0, max 0 (line_count - viewport_height)] whatever it was before and
    whatever the height (the drawing returns unless the cursor is below
    [-len(ordered)], where the lookup of the title raises); a scroll step (line up or down, page up or down)
    taken from a value within the range stays within it, provided the
    viewport height is not negative for the page steps; so in the loop, where
    every step follows a drawing, the value after the step is within range
    from any earlier value; and whenever a key replaces the diff content the
    scroll value is 0, as it is when the diff of the selected file is
    opened. *)
Theorem diff_scroll_clamped (env : Env) (s : GitTUI) :
  let h := height env in
  match draw_diff_view h s with
  | Ok s' => diff_scroll_in_range h s'
  | IndexError => cursor_pos s < - len (_get_ordered_files s)
  end ∧
  (∀ key, key ∈ [KEY_UP; KEY_DOWN; KEY_PPAGE; KEY_NPAGE] →
     key ∈ [KEY_UP; KEY_DOWN] ∨ 0 ≤ h - 3 →
     diff_scroll_in_range h s →
     ∃ s', _handle_diff_input env key s = Ok (s', true) ∧
           diff_content s' = diff_content s ∧
           diff_scroll_in_range h s') ∧
  (∀ key, key ∈ [KEY_UP; KEY_DOWN; KEY_PPAGE; KEY_NPAGE] →
     key ∈ [KEY_UP; KEY_DOWN] ∨ 0 ≤ h - 3 →
     match draw_diff_view h s with
     | Ok sd => ∃ s', _handle_diff_input env key sd = Ok (s', true) ∧
                      diff_scroll_in_range h s'
     | IndexError => cursor_pos s < - len (_get_ordered_files s)
     end) ∧
  (∀ key s' b, handle_input env key s = Ok (s', b) →
     diff_content s' ≠ diff_content s → diff_scroll s' = 0) ∧
  (∀ key file, mode s = "list" →
     key ∈ [ord "d"; ord "D"; ord "010"; KEY_ENTER] →
     0 ≤ cursor_pos s < len (files s) →
     _get_ordered_files s !! Z.to_nat (cursor_pos s) = Some file →
     ∃ s', handle_input env key s = Ok (s', true) ∧
           mode s' = "diff" ∧
           diff_content s' = get_file_diff env file ∧
           diff_scroll s' = 0).
Proof.
  intros h.
  assert (Hdraw : match draw_diff_view h s with
                  | Ok s' => diff_scroll_in_range h s'
                  | IndexError => cursor_pos s < - len (_get_ordered_files s)
                  end).
  { pose proof (draw_diff_view_cases h s) as H.
    destruct (draw_diff_view h s) as [s'|]; [|done]. destruct H as [_ ->].
    unfold diff_scroll_in_range. simpl. lia. }
  assert (Hstep : ∀ s key, key ∈ [KEY_UP; KEY_DOWN; KEY_PPAGE; KEY_NPAGE] →
            key ∈ [KEY_UP; KEY_DOWN] ∨ 0 ≤ h - 3 →
            diff_scroll_in_range h s →
            ∃ s', _handle_diff_input env key s = Ok (s', true) ∧
                  diff_content s' = diff_content s ∧
                  diff_scroll_in_range h s').
  { intros s0 key Hkey Hvh Hin. unfold diff_scroll_in_range in *.
    assert (Hsel := elem_of_4 _ _ _ _ _ Hkey).
    assert (Hvh' : key = KEY_UP ∨ key = KEY_DOWN ∨ 0 ≤ h - 3).
    { revert Hvh. rewrite !elem_of_cons, elem_of_nil. tauto. }
    clear Hkey Hvh. fold h.
    destruct Hsel as [-> | [-> | [-> | ->]]];
      rewrite ?handle_diff_input_up, ?handle_diff_input_down,
        ?handle_diff_input_page_up, ?handle_diff_input_page_down;
      (eexists; split; [done|]); simpl; (split; [done|]); fold h.
    - lia.
    - lia.
    - destruct Hvh' as [?|[?|?]]; [done..|]. lia.
    - destruct Hvh' as [?|[?|?]]; [done..|]. lia. }
  split_and!.
  - apply Hdraw.
  - apply Hstep.
  - intros key Hkey Hvh.
    destruct (draw_diff_view h s) as [sd|]; [|done].
    destruct (Hstep sd key Hkey Hvh Hdraw) as (s'&?&_&?).
    by exists s'.
  - intros key s' b Hrun Hne.
    by destruct (handle_input_diff_reset env key s s' b Hrun).
  - intros key file Hmode Hkey Hc Hfile.
    pose proof (lookup_lt_Some _ _ _ Hfile) as Hlt.
    destruct (py_index_Ok (_get_ordered_files s) (cursor_pos s)) as (f&Hidx&Hf);
      [unfold len; lia|].
    assert (f = file) as -> by congruence.
    unfold handle_input, _handle_list_input.
    assert (key ≠ -1 ∧ (key ∉ [ord "q"; ord "Q"]) ∧ key ≠ KEY_UP ∧ key ≠ KEY_DOWN ∧
            key ≠ KEY_PPAGE ∧ key ≠ KEY_NPAGE ∧ key ≠ ord " ") as (?&?&?&?&?&?&?).
    { destruct (elem_of_4 _ _ _ _ _ Hkey) as [-> | [-> | [-> | ->]]];
        split_and!; try (by vm_compute); apply not_elem_of_2; by vm_compute. }
    rewrite (bool_decide_eq_false_2 (key = -1)) by done.
    rewrite (bool_decide_eq_true_2 (mode s = "list")) by done.
    rewrite (bool_decide_eq_false_2 (key ∈ [ord "q"; ord "Q"])) by done.
    rewrite (bool_decide_eq_false_2 (key = KEY_UP)) by done.
    rewrite (bool_decide_eq_false_2 (key = KEY_DOWN)) by done.
    rewrite (bool_decide_eq_false_2 (key = KEY_PPAGE)) by done.
    rewrite (bool_decide_eq_false_2 (key = KEY_NPAGE)) by done.
    rewrite (bool_decide_eq_false_2 (key = ord " ")) by done.
    rewrite (bool_decide_eq_true_2 _ Hkey).
    rewrite (bool_decide_eq_true_2 (cursor_pos s < len (files s))) by lia.
    rewrite (bool_decide_eq_true_2 (cursor_pos s < len (_get_ordered_files s)))
      by (unfold len; lia).
    rewrite Hidx. eexists. split; [done|]. done.
Qed.

Lemma diff_scroll_clamped_witness :
  KEY_NPAGE ∈ [KEY_UP; KEY_DOWN; KEY_PPAGE; KEY_NPAGE] ∧
  (KEY_NPAGE ∈ [KEY_UP; KEY_DOWN] ∨ 0 ≤ height (quiet_env 24) - 3) ∧
  diff_scroll_in_range (height (quiet_env 24)) five_lines ∧
  ∃ s', _handle_diff_input (quiet_env 24) KEY_NPAGE five_lines = Ok (s', true) ∧
        diff_content s' = diff_content five_lines ∧
        diff_scroll_in_range (height (quiet_env 24)) s'.
Proof.
  assert (H1 : KEY_NPAGE ∈ [KEY_UP; KEY_DOWN; KEY_PPAGE; KEY_NPAGE])
    by (do 3 apply list_elem_of_further; apply list_elem_of_here).
  assert (H2 : KEY_NPAGE ∈ [KEY_UP; KEY_DOWN] ∨ 0 ≤ height (quiet_env 24) - 3)
    by (right; by vm_compute).
  assert (H3 : diff_scroll_in_range (height (quiet_env 24)) five_lines)
    by (by vm_compute).
  split; [exact H1|]. split; [exact H2|]. split; [exact H3|].
  exact (proj1 (proj2 (diff_scroll_clamped (quiet_env 24) five_lines))
           KEY_NPAGE H1 H2 H3).
Defined.

(** ** The watcher *)

Lemma in_cooldown_last tk s s' :
  last_refresh_time s' = last_refresh_time s → in_cooldown tk s' = in_cooldown tk s.
Proof. unfold in_cooldown. by intros ->. Qed.

(** A refresh returns as soon as the cursor is an index Python accepts, that
    is, not below [-len(ordered)]: the records are those of the new parse,
    the cursor is not negative, the watcher's fields are not touched. *)
Lemma refresh_status_returns r s :
  - len (_get_ordered_files s) ≤ cursor_pos s →
  ∃ s', _refresh_status r s = Ok s' ∧
        0 ≤ cursor_pos s' ∧
        files s' = files (parse_git_status r s) ∧
        watcher_proc s' = watcher_proc s ∧
        last_refresh_time s' = last_refresh_time s ∧
        events_during_cooldown s' = events_during_cooldown s.
Proof.
  intros Hc.
  assert (Hw : watcher_proc (parse_git_status r s) = watcher_proc s ∧
               last_refresh_time (parse_git_status r s) = last_refresh_time s ∧
               events_during_cooldown (parse_git_status r s) =
                 events_during_cooldown s).
  { unfold parse_git_status. by case_bool_decide. }
  destruct Hw as (?&?&?).
  unfold _refresh_status. cbv zeta.
  destruct (decide (cursor_pos s < len (_get_ordered_files s))) as [Hlt|Hge].
  - rewrite bool_decide_eq_true_2 by done.
    destruct (py_index_returns (_get_ordered_files s) (cursor_pos s)) as [f ->];
      [lia|].
    unfold mbind, result_bind, mret, result_ret.
    destruct (find_key _ _) as [i|]; (eexists; split; [done|]); simpl;
      split_and!; try done; lia.
  - rewrite bool_decide_eq_false_2 by done.
    unfold mbind, result_bind, mret, result_ret.
    eexists; split; [done|]; simpl. split_and!; try done.
Qed.

Lemma set_events_during_cooldown_same s :
  set_events_during_cooldown (events_during_cooldown s) s = s.
Proof. by destruct s. Qed.

(** One call of [_check_watcher] with a running watcher and a cursor that
    Python accepts as an index: it returns; it refreshes exactly when the
    cooldown is over and there are events, new or remembered, and the state
    is then the one [_refresh_status] leaves, with the time of the refresh
    and the flag cleared; otherwise nothing but the flag changes, which says
    whether events were swallowed and are still unserved. *)
Lemma check_watcher_step tk s :
  watcher_proc s = true → - len (_get_ordered_files s) ≤ cursor_pos s →
  ∃ s' fired,
    _check_watcher tk s = Ok (s', fired) ∧
    watcher_proc s' = true ∧ - len (_get_ordered_files s') ≤ cursor_pos s' ∧
    fired = negb (in_cooldown tk s) && (readable tk || events_during_cooldown s) ∧
    last_refresh_time s' = (if fired then after tk else last_refresh_time s) ∧
    events_during_cooldown s' =
      in_cooldown tk s && (readable tk || events_during_cooldown s) ∧
    (if fired
     then ∃ sr, _refresh_status (tick_status tk) s = Ok sr ∧
                s' = set_events_during_cooldown false
                       (set_last_refresh_time (after tk) sr)
     else s' = set_events_during_cooldown
                 (in_cooldown tk s && (readable tk || events_during_cooldown s)) s).
Proof.
  intros Hon Hc. unfold _check_watcher, watcher_refresh. rewrite Hon. simpl.
  destruct (refresh_status_returns (tick_status tk) s Hc)
    as (s1&Hrun&Hc1&Hf1&Hon1&_&_).
  assert (Hc1' : - len (_get_ordered_files s1) ≤ cursor_pos s1)
    by (unfold len; lia).
  destruct (readable tk), (in_cooldown tk s) eqn:Hcd,
    (events_during_cooldown s) eqn:Hev; simpl;
    rewrite ?Hrun; simpl; eexists _, _; (split; [done|]); simpl;
    split_and!; try done; try congruence;
    try (by eexists);
    try (by rewrite <-Hev at 1; rewrite set_events_during_cooldown_same).
Qed.

Lemma run_checks_app l1 l2 s :
  run_checks (l1 ++ l2) s =
    '(s1, log1) ← run_checks l1 s;
    '(s2, log2) ← run_checks l2 s1;
    mret (s2, log1 ++ log2).
Proof.
  revert s. induction l1 as [|tk l1 IH]; intros s; simpl.
  - unfold mbind, result_bind, mret, result_ret.
    by destruct (run_checks l2 s) as [[??]|].
  - unfold mbind, result_bind, mret, result_ret in *.
    destruct (_check_watcher tk s) as [[s1 fired]|]; [|done].
    rewrite IH. destruct (run_checks l1 s1) as [[s2 log1]|]; [|done].
    destruct (run_checks l2 s2) as [[s3 log2]|]; [|done].
    by destruct fired.
Qed.

Lemma spaced_weaken t t' log : t' ≤ t → spaced t log → spaced t' log.
Proof. destruct log; simpl; [done|]. intros ? [??]. split; [lia|done]. Qed.

Lemma increasing_weaken t t' ticks : t' ≤ t → increasing t ticks → increasing t' ticks.
Proof. destruct ticks; simpl; [done|]. intros ? (?&?&?). split_and!; [lia|done..]. Qed.

Lemma increasing_elem t ticks tk : increasing t ticks → tk ∈ ticks → t ≤ now tk.
Proof.
  revert t. induction ticks as [|a ticks IH]; intros t Hinc Hin.
  - by apply elem_of_nil in Hin.
  - destruct Hinc as (?&?&Hrest). apply elem_of_cons in Hin as [->|Hin]; [done|].
    specialize (IH _ Hrest Hin). lia.
Qed.

(** A run of calls returns, and its refreshes are a cooldown apart. *)
Lemma run_checks_spaced ticks s t :
  watcher_proc s = true → - len (_get_ordered_files s) ≤ cursor_pos s →
  last_refresh_time s ≤ t → increasing t ticks →
  ∃ s' log,
    run_checks ticks s = Ok (s', log) ∧
    watcher_proc s' = true ∧ - len (_get_ordered_files s') ≤ cursor_pos s' ∧
    spaced (last_refresh_time s) log ∧
    last_refresh_time s ≤ last_refresh_time s'.
Proof.
  revert s t. induction ticks as [|tk ticks IH]; intros s t Hon Hc Hlast Hinc; simpl.
  - by eexists _, _.
  - destruct Hinc as (Hnow&Hafter&Hrest).
    destruct (check_watcher_step tk s Hon Hc) as (s1&fired&->&Hon1&Hc1&Hf&Hl1&_).
    assert (Hlast1 : last_refresh_time s1 ≤ after tk)
      by (rewrite Hl1; destruct fired; lia).
    destruct (IH s1 (after tk) Hon1 Hc1 Hlast1 Hrest)
      as (s2&log&Hrun&Hon2&Hc2&Hsp&Hmono).
    unfold mbind, result_bind, mret, result_ret. rewrite Hrun.
    eexists _, _. split; [done|]. split_and!; [done..| |].
    + destruct fired; rewrite Hl1 in Hsp.
      * simpl. split.
        -- symmetry in Hf. apply andb_true_iff in Hf as [Hcd _].
           apply negb_true_iff in Hcd. unfold in_cooldown in Hcd.
           apply bool_decide_eq_false in Hcd. lia.
        -- by apply (spaced_weaken (after tk)).
      * done.
    + rewrite Hl1 in Hmono. destruct fired; lia.
Qed.

(** Calls made during the cooldown do not refresh; they leave the records,
    the cursor and the time of the last refresh alone and remember whether
    events were seen. *)
Lemma run_checks_in_cooldown burst s :
  watcher_proc s = true → - len (_get_ordered_files s) ≤ cursor_pos s →
  Forall (λ b, in_cooldown b s = true) burst →
  ∃ s',
    run_checks burst s = Ok (s', []) ∧
    watcher_proc s' = true ∧ - len (_get_ordered_files s') ≤ cursor_pos s' ∧
    files s' = files s ∧ cursor_pos s' = cursor_pos s ∧
    last_refresh_time s' = last_refresh_time s ∧
    events_during_cooldown s' =
      events_during_cooldown s || existsb readable burst.
Proof.
  revert s. induction burst as [|b burst IH]; intros s Hon Hc Hcd; simpl.
  - eexists. split; [done|]. by rewrite orb_false_r.
  - apply Forall_cons in Hcd as [Hb Hrest].
    destruct (check_watcher_step b s Hon Hc)
      as (s1&fired&->&Hon1&Hc1&Hf&Hl1&He1&Hs1).
    rewrite Hb in Hf, He1, Hs1. simpl in Hf, He1, Hs1. subst fired.
    destruct (IH s1 Hon1 Hc1) as (s2&Hrun&Hon2&Hc2&Hf2&Hcur2&Hl2&He2).
    { eapply Forall_impl; [exact Hrest|]. intros x Hx. simpl in Hx.
      by rewrite (in_cooldown_last x s s1 Hl1). }
    unfold mbind, result_bind, mret, result_ret. rewrite Hrun.
    eexists. split; [done|]. split_and!; [done..| | |congruence|].
    + rewrite Hf2, Hs1. done.
    + rewrite Hcur2, Hs1. done.
    + rewrite He2, He1. by destruct (readable b), (events_during_cooldown s).
Qed.

(** The state reached after some calls still satisfies what the run
    started from. *)
Lemma run_checks_prefix pre rest s t sp lp :
  watcher_proc s = true → - len (_get_ordered_files s) ≤ cursor_pos s →
  last_refresh_time s ≤ t → increasing t (pre ++ rest) →
  run_checks pre s = Ok (sp, lp) →
  watcher_proc sp = true ∧ - len (_get_ordered_files sp) ≤ cursor_pos sp ∧
  ∃ t', last_refresh_time sp ≤ t' ∧ increasing t' rest.
Proof.
  revert s t lp. induction pre as [|tk pre IH]; intros s t lp Hon Hc Hlast Hinc; simpl.
  - intros [= <- <-]. split_and!; [done..|]. by exists t.
  - destruct Hinc as (Hnow&Hafter&Hrest).
    destruct (check_watcher_step tk s Hon Hc) as (s1&fired&->&Hon1&Hc1&Hf&Hl1&_).
    assert (Hlast1 : last_refresh_time s1 ≤ after tk)
      by (rewrite Hl1; destruct fired; lia).
    unfold mbind, result_bind, mret, result_ret.
    destruct (run_checks pre s1) as [[s2 log]|] eqn:Hrun; [|done].
    intros [= <- <-]. by apply (IH s1 (after tk) log).
Qed.

(** C4, the claim as stated fails on its last clause: the record list can be
    stale for more than one cooldown after the last event.  With calls at
    most 100 ms apart, as the loop of [run] makes them, an event seen at
    1001, one millisecond after a refresh, is served by the call at 1299:
    the calls at 1101 and 1199 are inside the cooldown and leave the old list
    in place, so the list is stale from 1001 to 1299, which is more than
    1001 + COOLDOWN.  With nothing called between 1001 and 5000 the same
    event is served at 5000: without a bound on the time between two calls
    there is no bound on the delay. *)
Lemma trailing_refresh_late :
  (watcher_proc watching = true ∧
   - len (_get_ordered_files watching) ≤ cursor_pos watching ∧
   increasing (last_refresh_time watching) late_ticks ∧
   polled 100 1000 late_ticks ∧
   (∃ s4, run_checks (take 4 late_ticks) watching = Ok (s4, [1000]) ∧
          files s4 = [] ∧ events_during_cooldown s4 = true) ∧
   (∃ s5, run_checks late_ticks watching = Ok (s5, [1000; 1299]) ∧
          files s5 = [mkGitFile "modified" "a.txt" false]) ∧
   1001 + COOLDOWN < 1299) ∧
  (increasing (last_refresh_time watching) sparse_ticks ∧
   (∃ s2, run_checks (take 2 sparse_ticks) watching = Ok (s2, [1000]) ∧
          files s2 = [] ∧ events_during_cooldown s2 = true) ∧
   (∃ s3, run_checks sparse_ticks watching = Ok (s3, [1000; 5000]) ∧
          files s3 = [mkGitFile "modified" "a.txt" false]) ∧
   1001 + COOLDOWN < 5000).
Proof.
  split; split_and!; try (by vm_compute);
    eexists; split_and!; by vm_compute.
Qed.

(** C4, amended.  Calls of [_check_watcher] at increasing times, whatever
    events they see, from a state whose cursor Python accepts as an index:
    every call returns; two refreshes are never less than one cooldown
    apart; a call outside the cooldown that sees events, or finds the pending
    flag set, refreshes at once (leading edge): the state is the one
    [_refresh_status] leaves, the records those of the new parse, the flag
    cleared; a call inside the cooldown never refreshes, leaves records and
    cursor as they are and sets the flag when it sees events; a call outside
    the cooldown with no event, new or pending, changes nothing; and after
    calls inside the cooldown of which one saw events, the first call at or
    after the end of the cooldown makes exactly one refresh and clears the
    flag (trailing edge).  That call is never before the end of the cooldown;
    it is less than one cooldown plus [P] after each of the swallowed events
    when it follows the call before it by at most [P]. *)
Theorem watcher_debounce (s : GitTUI) (ticks : list Tick) :
  watcher_proc s = true →
  - len (_get_ordered_files s) ≤ cursor_pos s →
  increasing (last_refresh_time s) ticks →
  ∃ s' log,
    run_checks ticks s = Ok (s', log) ∧
    spaced (last_refresh_time s) log ∧
    (∀ pre tk post sp lp,
       ticks = pre ++ tk :: post → run_checks pre s = Ok (sp, lp) →
       ∃ sq fired,
         _check_watcher tk sp = Ok (sq, fired) ∧
         (in_cooldown tk sp = false →
          readable tk = true ∨ events_during_cooldown sp = true →
          fired = true ∧
          (∃ sr, _refresh_status (tick_status tk) sp = Ok sr ∧
                 sq = set_events_during_cooldown false
                        (set_last_refresh_time (after tk) sr)) ∧
          files sq = files (parse_git_status (tick_status tk) sp) ∧
          events_during_cooldown sq = false ∧
          last_refresh_time sq = after tk) ∧
         (in_cooldown tk sp = true →
          fired = false ∧
          files sq = files sp ∧ cursor_pos sq = cursor_pos sp ∧
          last_refresh_time sq = last_refresh_time sp ∧
          events_during_cooldown sq = readable tk || events_during_cooldown sp) ∧
         (in_cooldown tk sp = false →
          readable tk = false → events_during_cooldown sp = false →
          fired = false ∧ sq = sp)) ∧
    (∀ pre burst tk post sp lp,
       ticks = pre ++ burst ++ tk :: post → run_checks pre s = Ok (sp, lp) →
       Forall (λ b, in_cooldown b sp = true) burst →
       events_during_cooldown sp = true ∨ Exists (λ b, readable b = true) burst →
       in_cooldown tk sp = false →
       (∃ sb sq,
          run_checks (pre ++ burst) s = Ok (sb, lp) ∧
          files sb = files sp ∧
          run_checks (pre ++ burst ++ [tk]) s = Ok (sq, lp ++ [now tk]) ∧
          files sq = files (parse_git_status (tick_status tk) sb) ∧
          events_during_cooldown sq = false ∧
          last_refresh_time sq = after tk) ∧
       (∀ b, b ∈ burst →
             last_refresh_time sp ≤ now b < last_refresh_time sp + COOLDOWN) ∧
       last_refresh_time sp + COOLDOWN ≤ now tk ∧
       (∀ P bl, last burst = Some bl → now tk ≤ now bl + P →
                ∀ b, b ∈ burst → now tk < now b + COOLDOWN + P)).
Proof.
  intros Hon Hc Hinc.
  destruct (run_checks_spaced ticks s _ Hon Hc (Z.le_refl _) Hinc)
    as (s'&log&Hrun&_&_&Hsp&_).
  exists s', log. split; [done|]. split; [done|]. split.
  - intros pre tk post sp lp -> Hpre.
    destruct (run_checks_prefix pre _ s _ sp lp Hon Hc (Z.le_refl _) Hinc Hpre)
      as (Honp&Hcp&_).
    destruct (check_watcher_step tk sp Honp Hcp)
      as (sq&fired&Hstep&_&_&Hf&Hl&He&Hsq).
    exists sq, fired. split; [done|]. split_and!.
    + intros Hcd Hev. rewrite Hcd in Hf, He. simpl in Hf, He.
      assert (fired = true) as -> by (destruct Hev as [Hev|Hev]; rewrite Hev in Hf;
        [done|by rewrite orb_true_r in Hf]).
      destruct Hsq as (sr&Hsr&->).
      destruct (refresh_status_returns (tick_status tk) sp Hcp)
        as (sr'&Hsr'&_&Hfiles&_).
      assert (sr' = sr) as -> by congruence.
      split_and!; [done|by exists sr|done|done|done].
    + intros Hcd. rewrite Hcd in Hf, He, Hsq. simpl in Hf, He, Hsq. subst fired.
      by subst sq.
    + intros Hcd Hr Hev. rewrite Hcd, Hr, Hev in Hf, He, Hsq. simpl in Hf, He, Hsq.
      subst fired. split; [done|]. subst sq.
      by rewrite <-Hev at 1; rewrite set_events_during_cooldown_same.
  - intros pre burst tk post sp lp -> Hpre Hburst Hev Hcd.
    destruct (run_checks_prefix pre _ s _ sp lp Hon Hc (Z.le_refl _) Hinc Hpre)
      as (Honp&Hcp&t'&Ht'&Hinc').
    destruct (run_checks_in_cooldown burst sp Honp Hcp Hburst)
      as (s1&Hrun1&Hon1&Hc1&Hfiles1&_&Hl1&He1).
    assert (Hpend : events_during_cooldown s1 = true).
    { rewrite He1. destruct Hev as [->|Hex]; [done|].
      apply orb_true_iff. right. apply existsb_exists.
      apply Exists_exists in Hex as (b&Hb&?). exists b.
      by rewrite <-list_elem_of_In. }
    destruct (check_watcher_step tk s1 Hon1 Hc1)
      as (sq&fired&Hstep&_&_&Hf&Hl&He&Hsq).
    rewrite (in_cooldown_last tk sp s1 Hl1), Hcd, Hpend in Hf, He.
    rewrite orb_true_r in Hf, He. simpl in Hf, He. subst fired.
    destruct Hsq as (sr&Hsr&Hsq).
    destruct (refresh_status_returns (tick_status tk) s1 Hc1)
      as (sr'&Hsr'&_&Hfiles&_).
    assert (sr' = sr) as -> by congruence.
    assert (Hwin : ∀ b, b ∈ burst →
              last_refresh_time sp ≤ now b < last_refresh_time sp + COOLDOWN).
    { intros b Hb. split.
      - pose proof (increasing_elem t' (burst ++ tk :: post) b Hinc') as Hle.
        rewrite elem_of_app in Hle. specialize (Hle (or_introl Hb)). lia.
      - rewrite Forall_forall in Hburst. specialize (Hburst b Hb).
        unfold in_cooldown in Hburst. apply bool_decide_eq_true in Hburst. lia. }
    split_and!.
    + exists s1, sq. split_and!.
      * rewrite run_checks_app, Hpre. simpl. rewrite Hrun1. simpl.
        by rewrite app_nil_r.
      * done.
      * rewrite run_checks_app, Hpre. simpl.
        rewrite run_checks_app, Hrun1. simpl. by rewrite Hstep.
      * subst sq. done.
      * done.
      * done.
    + done.
    + unfold in_cooldown in Hcd. apply bool_decide_eq_false in Hcd. lia.
    + intros P bl Hbl Hgap b Hb.
      assert (Hblin : bl ∈ burst).
      { apply last_Some in Hbl as [l' ->]. apply elem_of_app. right.
        apply list_elem_of_here. }
      pose proof (Hwin b Hb). pose proof (Hwin bl Hblin). lia.
Qed.

Lemma watcher_debounce_witness :
  let sp := set_last_refresh_time 1005 (set_status_message "Refreshed" watching) in
  watcher_proc watching = true ∧
  - len (_get_ordered_files watching) ≤ cursor_pos watching ∧
  increasing (last_refresh_time watching) three_ticks ∧
  (∃ s' log, run_checks three_ticks watching = Ok (s', log) ∧
             spaced (last_refresh_time watching) log) ∧
  (∃ sb sq,
     run_checks (take 2 three_ticks) watching = Ok (sb, [1000]) ∧
     files sb = files sp ∧
     run_checks three_ticks watching = Ok (sq, [1000; 1300]) ∧
     files sq = files (parse_git_status (ok_result "") sb) ∧
     events_during_cooldown sq = false ∧
     last_refresh_time sq = 1310) ∧
  1300 < 1100 + COOLDOWN + 200.
Proof.
  intros sp.
  assert (H1 : watcher_proc watching = true) by reflexivity.
  assert (H2 : - len (_get_ordered_files watching) ≤ cursor_pos watching)
    by (by vm_compute).
  assert (H3 : increasing (last_refresh_time watching) three_ticks)
    by (by vm_compute).
  split; [exact H1|]. split; [exact H2|]. split; [exact H3|].
  destruct (watcher_debounce watching three_ticks H1 H2 H3)
    as (s'&log&Hrun&Hsp&_&Htrail).
  split; [exists s', log; split; [exact Hrun|exact Hsp]|].
  destruct (Htrail [mkTick 1000 true (ok_result "") 1005]
              [mkTick 1100 true (ok_result "") 1100]
              (mkTick 1300 false (ok_result "") 1310) [] sp [1000])
    as (Hlast&_&_&Hbound).
  - reflexivity.
  - by vm_compute.
  - repeat constructor.
  - right. repeat constructor.
  - by vm_compute.
  - split; [exact Hlast|].
    exact (Hbound 200 (mkTick 1100 true (ok_result "") 1100) eq_refl
             ltac:(by vm_compute) (mkTick 1100 true (ok_result "") 1100)
             ltac:(apply list_elem_of_here)).
Defined.

Example three_ticks_log :
  ∃ s', run_checks three_ticks watching = Ok (s', [1000; 1300]) ∧
        last_refresh_time s' = 1310 ∧ events_during_cooldown s' = false.
Proof. eexists. split_and!; by vm_compute. Qed.

(** A cursor below [-len(ordered)], as Page Down leaves it on an empty list
    two rows high or less, makes the refresh of the watcher raise. *)
Example watcher_refresh_raises :
  run_checks three_ticks (set_cursor_pos (-1) watching) = IndexError.
Proof. by vm_compute. Qed.

(** * Further properties of the program *)

(** ** The parser *)

Lemma status_char_name_in c : _status_char_to_name c ∈ status_names.
Proof.
  unfold _status_char_to_name, status_names.
  destruct (mapping !! c) as [n|] eqn:E; simpl.
  - unfold mapping in E. apply elem_of_list_to_map_2 in E.
    rewrite !elem_of_cons, elem_of_nil in E. rewrite !elem_of_cons.
    intuition (simplify_eq; auto 10).
  - apply list_elem_of_here.
Qed.

Lemma parse_porcelain_Forall (P : GitFile → Prop) out :
  (∀ line, Forall P (parse_line line)) → Forall P (parse_porcelain out).
Proof.
  intros HP. unfold parse_porcelain. destruct (strip_is_empty out); [constructor|].
  apply Forall_concat, Forall_fmap, Forall_forall. intros line _. apply HP.
Qed.

Lemma parse_porcelain_status_names out :
  Forall (λ f, status f ∈ status_names) (parse_porcelain out).
Proof.
  apply parse_porcelain_Forall. intros line.
  unfold parse_line. destruct (chars line) as [|x [|y [|z rest]]]; try constructor.
  apply Forall_app. split.
  - case_bool_decide; constructor; [|constructor]. apply status_char_name_in.
  - destruct (_ || _); constructor; [|constructor]. simpl.
    case_bool_decide; [|apply status_char_name_in].
    unfold status_names. rewrite !elem_of_cons. auto 10.
Qed.

(** X1. Every record the parser builds has one of the seven status names of
    [_status_char_to_name]; a status letter the dictionary does not know is
    read as "modified". *)
Theorem parsed_status_names (out : string) :
  Forall (λ f, status f ∈ status_names) (parse_porcelain out) ∧
  (∀ c, mapping !! c = None → _status_char_to_name c = "modified").
Proof.
  split.
  - apply parse_porcelain_status_names.
  - intros c Hc. unfold _status_char_to_name. by rewrite Hc.
Qed.

(** X2. One line of the porcelain text gives at most two records; they
    carry the same path, and when there are two the first is the staged entry
    and the second the unstaged one.  So the parsed list has at most twice as
    many records as the text has lines. *)
Theorem parse_line_shape (line out : string) :
  (∃ p, Forall (λ f, path f = p) (parse_line line)) ∧
  (length (parse_line line) ≤ 2)%nat ∧
  (∀ (i j : nat) f g,
     parse_line line !! i = Some f → parse_line line !! j = Some g →
     (i < j)%nat → staged f = true ∧ staged g = false) ∧
  (length (parse_porcelain out) ≤ 2 * length (py_split newline out))%nat.
Proof.
  assert (Hlen : ∀ l, (length (parse_line l) ≤ 2)%nat).
  { intros l. unfold parse_line.
    destruct (chars l) as [|x [|y [|z rest]]]; simpl; try lia.
    rewrite length_app. case_bool_decide; destruct (_ || _); simpl; lia. }
  split_and!.
  - unfold parse_line. destruct (chars line) as [|x [|y [|z rest]]];
      try (by exists ""; constructor).
    eexists. apply Forall_app. split.
    + case_bool_decide; repeat constructor.
    + destruct (_ || _); repeat constructor.
  - apply Hlen.
  - unfold parse_line. destruct (chars line) as [|x [|y [|z rest]]];
      try (by intros ???? Hf; rewrite lookup_nil in Hf).
    intros i j f g Hf Hg Hij.
    case_bool_decide; destruct (_ || _); simpl in *;
      destruct i as [|[|i]]; destruct j as [|[|j]]; simplify_eq/=; try lia; done.
  - unfold parse_porcelain. destruct (strip_is_empty out); [simpl; lia|].
    induction (py_split newline out) as [|l ls IH]; csimpl; [lia|].
    rewrite length_app. specialize (Hlen l). lia.
Qed.

Lemma starts_with_app sep l l' :
  starts_with sep l = true → starts_with sep (l ++ l') = true.
Proof.
  revert l. induction sep as [|a sep IH]; intros [|b l]; simpl; try done.
  intros [? ?]%andb_true_iff. apply andb_true_iff. auto.
Qed.

Lemma contains_go_false sep p :
  sep ≠ [] →
  (∀ i, (i < length p)%nat → starts_with sep (drop i p) = false) →
  contains_go sep p = false.
Proof.
  intros Hsep. induction p as [|a p IH]; intros Hp.
  - by destruct sep.
  - cbn [contains_go]. apply orb_false_iff. split.
    + apply (Hp 0%nat). simpl. lia.
    + apply IH. intros i Hi. apply (Hp (S i)). simpl. lia.
Qed.

(** No piece of a split holds the separator. *)
Lemma split_go_no_sep sep l skip cur :
  sep ≠ [] →
  (skip ≠ 0%nat → cur = []) →
  (∀ i, (i < length cur)%nat → starts_with sep (drop i (rev cur ++ l)) = false) →
  Forall (λ p, contains_go sep p = false) (split_go sep skip cur l).
Proof.
  intros Hsep. revert skip cur. induction l as [|c l IH]; intros skip cur Hskip Hclean.
  - constructor; [|constructor]. apply contains_go_false; [done|].
    intros i Hi. rewrite length_rev in Hi. specialize (Hclean i Hi).
    by rewrite app_nil_r in Hclean.
  - cbn [split_go]. destruct skip as [|k].
    + destruct (starts_with sep (c :: l)) eqn:Hm.
      * constructor.
        -- apply contains_go_false; [done|]. intros i Hi. rewrite length_rev in Hi.
           specialize (Hclean i Hi).
           destruct (starts_with sep (drop i (rev cur))) eqn:E; [|done].
           apply (starts_with_app _ _ (c :: l)) in E.
           rewrite <-drop_app_le in E by (rewrite length_rev; lia). congruence.
        -- apply IH; [done|]. simpl. lia.
      * apply IH; [done|]. intros i Hi. simpl in Hi.
        replace (rev (c :: cur) ++ l) with (rev cur ++ c :: l)
          by (simpl; by rewrite <-app_assoc).
        destruct (decide (i < length cur)%nat) as [Hlt|Hge]; [by apply Hclean|].
        replace i with (length (rev cur)) by (rewrite length_rev; lia).
        by rewrite drop_app_length.
    + rewrite (Hskip ltac:(done)). apply IH; [done|]. simpl. lia.
Qed.

Lemma split_go_nonempty sep l skip cur : split_go sep skip cur l ≠ [].
Proof.
  revert skip cur. induction l as [|c l IH]; intros skip cur; simpl; [done|].
  destruct skip; [|apply IH]. destruct (starts_with sep (c :: l)); [done|apply IH].
Qed.

Lemma last_elem_of {A} (l : list A) d : l ≠ [] → List.last l d ∈ l.
Proof.
  induction l as [|a [|b l] IH]; intros Hl; [done|apply list_elem_of_here|].
  apply list_elem_of_further. by apply IH.
Qed.

Lemma chars_text l : chars (text l) = l.
Proof. apply list_ascii_of_string_of_list_ascii. Qed.

(** X3. The path of a parsed record never contains " -> ": of a rename
    line "R  old -> new" only what follows the last arrow is kept. *)
Theorem parsed_path_has_no_arrow (out : string) :
  Forall (λ f, py_contains " -> " (path f) = false) (parse_porcelain out).
Proof.
  apply parse_porcelain_Forall. intros line. unfold parse_line.
  destruct (chars line) as [|x [|y [|z rest]]]; try constructor.
  set (path0 := text rest).
  assert (Hpath : py_contains " -> "
            (if py_contains " -> " path0
             then List.last (py_split " -> " path0) path0 else path0) = false).
  { destruct (py_contains " -> " path0) eqn:E; [|done].
    unfold py_split.
    pose proof (split_go_no_sep (chars " -> ") (chars path0) 0 []
                  ltac:(done) ltac:(done) ltac:(simpl; lia)) as Hall.
    pose proof (split_go_nonempty (chars " -> ") (chars path0) 0 []) as Hne.
    destruct (split_go (chars " -> ") 0 [] (chars path0)) as [|p ps] eqn:Hs; [done|].
    assert (Hin : List.last (text <$> p :: ps) path0 ∈ text <$> p :: ps)
      by (by apply last_elem_of).
    apply list_elem_of_fmap in Hin as (q&->&Hq).
    rewrite Forall_forall in Hall. specialize (Hall q Hq).
    unfold py_contains. by rewrite chars_text. }
  apply Forall_app. split.
  - case_bool_decide; constructor; [done|constructor].
  - destruct (_ || _); constructor; [done|constructor].
Qed.

Example rename_line_path :
  parse_porcelain ("R  a -> -> b" +:+ newline) =
  [mkGitFile "renamed" "-> b" true].
Proof. vm_compute. reflexivity. Qed.

(** ** Refreshing, once more *)

(** X4. A refresh that brings back the list that is already there (the
    same parsed records, or a failed [git status]) leaves the cursor where it
    is, when the records of the list have pairwise different keys. *)
Theorem refresh_status_stable (r : GitResult) (s : GitTUI) :
  0 ≤ cursor_pos s < len (_get_ordered_files s) →
  NoDup (key <$> _get_ordered_files s) →
  returncode r ≠ 0 ∨ parse_porcelain (stdout r) = files s →
  ∃ s', _refresh_status r s = Ok s' ∧
        files s' = files s ∧
        cursor_pos s' = cursor_pos s.
Proof.
  intros Hc Hnd Hsame.
  destruct (lookup_lt_is_Some_2 (_get_ordered_files s) (Z.to_nat (cursor_pos s)))
    as [old Hold]; [unfold len in Hc; lia|].
  rewrite (refresh_status_on_file r s old (proj1 Hc) Hold).
  eexists. split; [done|]. cbv zeta.
  assert (Hfiles : files (parse_git_status r s) = files s).
  { rewrite parse_git_status_files. case_bool_decide; [|done].
    by destruct Hsame. }
  assert (Hord : _get_ordered_files (parse_git_status r s) = _get_ordered_files s)
    by (unfold _get_ordered_files; by rewrite Hfiles).
  rewrite Hord.
  destruct (find_key (key old) (_get_ordered_files s)) as [i|] eqn:E; simpl.
  - split; [done|]. apply find_key_Some in E as [[g [Hg Hk]] _].
    assert (i = Z.to_nat (cursor_pos s)) as ->; [|lia].
    eapply (NoDup_lookup _ _ _ (key old) Hnd); rewrite list_lookup_fmap.
    + by rewrite Hg, <-Hk.
    + by rewrite Hold.
  - apply find_key_None in E. apply list_elem_of_lookup_2 in Hold.
    by destruct (E old Hold).
Qed.

Lemma refresh_status_stable_witness :
  let s := set_cursor_pos 1 (with_staged 3) in
  let r := ok_result (staged_porcelain 3) in
  0 ≤ cursor_pos s < len (_get_ordered_files s) ∧
  NoDup (key <$> _get_ordered_files s) ∧
  (returncode r ≠ 0 ∨ parse_porcelain (stdout r) = files s) ∧
  ∃ s', _refresh_status r s = Ok s' ∧ files s' = files s ∧
        cursor_pos s' = cursor_pos s.
Proof.
  intros s r.
  assert (H1 : 0 ≤ cursor_pos s < len (_get_ordered_files s)) by (by vm_compute).
  assert (H2 : NoDup (key <$> _get_ordered_files s)).
  { vm_compute. repeat (constructor; [rewrite ?elem_of_cons, elem_of_nil;
      intuition discriminate|]). constructor. }
  assert (H3 : returncode r ≠ 0 ∨ parse_porcelain (stdout r) = files s)
    by (right; reflexivity).
  split; [exact H1|]. split; [exact H2|]. split; [exact H3|].
  exact (refresh_status_stable r s H1 H2 H3).
Defined.

(** ** The cursor stays inside the list *)

Lemma commands_files r f s :
  files (stage_file r f s) = files s ∧
  files (unstage_file r f s) = files s ∧
  files (discard_changes r f s) = files s.
Proof.
  unfold stage_file, unstage_file, discard_changes. by repeat case_bool_decide.
Qed.

Lemma commands_cursor r f s :
  cursor_pos (stage_file r f s) = cursor_pos s ∧
  cursor_pos (unstage_file r f s) = cursor_pos s ∧
  cursor_pos (discard_changes r f s) = cursor_pos s.
Proof.
  unfold stage_file, unstage_file, discard_changes. by repeat case_bool_decide.
Qed.

Lemma find_key_lt k l i : find_key k l = Some i → (i < length l)%nat.
Proof.
  intros [[g [Hg _]] _]%find_key_Some. by apply lookup_lt_Some in Hg.
Qed.

Lemma cursor_ok_ext s s' :
  files s' = files s → cursor_pos s' = cursor_pos s → cursor_ok s → cursor_ok s'.
Proof. unfold cursor_ok. by intros -> ->. Qed.

Lemma cursor_ok_message m s : cursor_ok s → cursor_ok (set_status_message m s).
Proof. by apply cursor_ok_ext. Qed.

Lemma cursor_ok_set v s :
  Forall no_staged_untracked (files s) →
  0 ≤ v < Z.max (len (_get_ordered_files s)) 1 →
  cursor_ok (set_cursor_pos v s).
Proof.
  intros Hwf Hv. split; [|done]. simpl.
  unfold _get_ordered_files in Hv. by rewrite ordered_length in Hv.
Qed.

Lemma cursor_ok_index s :
  cursor_ok s → cursor_pos s < len (_get_ordered_files s) →
  ∃ f, py_index (_get_ordered_files s) (cursor_pos s) = Ok f ∧
       _get_ordered_files s !! Z.to_nat (cursor_pos s) = Some f.
Proof. intros [[? _] _] ?. apply py_index_Ok. lia. Qed.

(** The state after the command and the new parse: a cursor placed by
    [set_cursor_pos] inside the new list is fine. *)
Lemma cursor_ok_after_parse r s0 s v :
  cursor_ok s → files s0 = files s →
  0 ≤ v < Z.max (len (_get_ordered_files (parse_git_status r s0))) 1 →
  cursor_ok (set_cursor_pos v (parse_git_status r s0)).
Proof.
  intros [_ Hwf] Hf Hv. apply cursor_ok_set; [|done].
  apply parse_git_status_wf. by rewrite Hf.
Qed.

Lemma refresh_status_cursor_ok r s :
  cursor_ok s → ∃ s', _refresh_status r s = Ok s' ∧ cursor_ok s'.
Proof.
  intros Hok.
  destruct (decide (cursor_pos s < len (_get_ordered_files s))) as [Hlt|Hge].
  - destruct (cursor_ok_index s Hok Hlt) as (old&_&Hold).
    rewrite (refresh_status_on_file r s old (proj1 (proj1 Hok)) Hold).
    eexists. split; [done|]. cbv zeta. apply cursor_ok_message.
    destruct (find_key _ _) as [i|] eqn:E;
      apply (cursor_ok_after_parse r s s); try done.
    + apply find_key_lt in E. unfold len. lia.
    + unfold len. lia.
  - rewrite refresh_status_past_end by lia. eexists. split; [done|].
    apply cursor_ok_message.
    apply (cursor_ok_after_parse r s s); try done. unfold len. lia.
Qed.

Lemma toggle_stage_cursor_ok env s :
  cursor_ok s → ∃ s', _toggle_stage_current_file env s = Ok s' ∧ cursor_ok s'.
Proof.
  intros Hok.
  destruct (decide (cursor_pos s < len (_get_ordered_files s))) as [Hlt|Hge].
  - destruct (cursor_ok_index s Hok Hlt) as (file&_&Hfile).
    rewrite (toggle_stage_on_file env s file (proj1 (proj1 Hok)) Hfile).
    eexists. split; [done|]. cbv zeta.
    set (s1 := if staged file then unstage_file (git_reset env) file s
               else stage_file (git_add env) file s).
    assert (files s1 = files s ∧ cursor_pos s1 = cursor_pos s) as [Hf1 Hc1].
    { subst s1. destruct (staged file); split;
        (apply commands_files || apply commands_cursor). }
    assert (Hc2 : cursor_pos (parse_git_status (git_status env) s1) = cursor_pos s)
      by (by rewrite parse_git_status_cursor).
    case_bool_decide as Hempty.
    + apply (cursor_ok_after_parse _ s1 s); try done. unfold len. lia.
    + destruct (_ ≫= _) as [i|] eqn:E.
      * apply (cursor_ok_after_parse _ s1 s); try done.
        apply bind_Some in E as (k&_&E).
        apply find_key_lt in E. unfold len. lia.
      * apply (cursor_ok_after_parse _ s1 s); try done.
        destruct Hok as [[? _] _]. unfold len in *. lia.
  - unfold _toggle_stage_current_file.
    rewrite bool_decide_eq_true_2 by lia. by eexists.
Qed.

Lemma chunk_stage_cursor_ok env s :
  cursor_ok s → ∃ s', _chunk_stage_current_file env s = Ok s' ∧ cursor_ok s'.
Proof.
  intros Hok. unfold _chunk_stage_current_file.
  destruct (decide (cursor_pos s < len (_get_ordered_files s))) as [Hlt|Hge];
    [|rewrite bool_decide_eq_true_2 by lia; by eexists].
  rewrite bool_decide_eq_false_2 by lia.
  destruct (cursor_ok_index s Hok Hlt) as (file&->&_). simpl.
  destruct (staged file); [eexists; split; [done|]; by apply cursor_ok_message|].
  case_bool_decide; [eexists; split; [done|]; by apply cursor_ok_message|].
  destruct (add_patch env); (eexists; split; [done|]); apply cursor_ok_message;
    [done|].
  apply (cursor_ok_after_parse _ s s); try done.
  rewrite parse_git_status_cursor. destruct Hok as [[? _] _]. unfold len in *. lia.
Qed.

Lemma discard_cursor_ok env s :
  cursor_ok s → ∃ s', _discard_current_file env s = Ok s' ∧ cursor_ok s'.
Proof.
  intros Hok. unfold _discard_current_file.
  destruct (decide (cursor_pos s < len (_get_ordered_files s))) as [Hlt|Hge];
    [|rewrite bool_decide_eq_true_2 by lia; by eexists].
  rewrite bool_decide_eq_false_2 by lia.
  destruct (cursor_ok_index s Hok Hlt) as (file&->&_). simpl.
  destruct (staged file); [eexists; split; [done|]; by apply cursor_ok_message|].
  case_bool_decide; [eexists; split; [done|]; by apply cursor_ok_message|].
  destruct (confirm env); simpl;
    [|eexists; split; [done|]; by apply cursor_ok_message].
  case_bool_decide as Hempty; (eexists; split; [done|]);
    apply (cursor_ok_after_parse _ (discard_changes (git_restore env) file s) s);
    try done; try apply commands_files.
  - unfold len. lia.
  - rewrite parse_git_status_cursor, (proj2 (proj2 (commands_cursor _ _ _))).
    destruct Hok as [[? _] _]. unfold len in *. lia.
Qed.

Lemma stage_all_cursor_ok env s : cursor_ok s → cursor_ok (_stage_all env s).
Proof.
  intros Hok. unfold _stage_all.
  destruct (unstaged_files (files s)); [by apply cursor_ok_message|].
  apply cursor_ok_message. apply (cursor_ok_after_parse _ s s); try done.
  unfold len. lia.
Qed.

Lemma commit_dialog_cursor_ok env s :
  cursor_ok s → cursor_ok (show_commit_dialog env s).
Proof.
  intros Hok. unfold show_commit_dialog.
  destruct (staged_files (files s)); [by apply cursor_ok_message|].
  destruct (editor env); [|by apply cursor_ok_message].
  case_bool_decide; [by apply cursor_ok_message|].
  case_bool_decide; [|by apply cursor_ok_message].
  apply (cursor_ok_after_parse _ (set_status_message "Commit successful!" s) s);
    try done. unfold len. lia.
Qed.

Lemma toggle_in_diff_cursor_ok env s :
  cursor_ok s → ∃ s', _toggle_stage_in_diff env s = Ok s' ∧ cursor_ok s'.
Proof.
  intros Hok. unfold _toggle_stage_in_diff.
  destruct (decide (cursor_pos s < len (_get_ordered_files s))) as [Hlt|Hge];
    [|rewrite bool_decide_eq_true_2 by lia; eexists; split; [done|];
      by apply (cursor_ok_ext s)].
  rewrite bool_decide_eq_false_2 by lia.
  destruct (cursor_ok_index s Hok Hlt) as (file&->&_). simpl.
  set (s1 := if staged file then unstage_file (git_reset env) file s
             else stage_file (git_add env) file s).
  assert (files s1 = files s ∧ cursor_pos s1 = cursor_pos s) as [Hf1 Hc1].
  { subst s1. destruct (staged file); split;
      (apply commands_files || apply commands_cursor). }
  destruct (list_find _ _) as [[i f]|] eqn:E; (eexists; split; [done|]).
  - apply (cursor_ok_ext
             (set_cursor_pos (Z.of_nat i) (parse_git_status (git_status env) s1)));
      [done..|].
    apply (cursor_ok_after_parse _ s1 s); try done.
    apply list_find_Some in E as (Hi&_). apply lookup_lt_Some in Hi.
    unfold len. lia.
  - apply (cursor_ok_ext
             (set_cursor_pos
                (Z.max 0 (Z.min (cursor_pos (parse_git_status (git_status env) s1))
                   (len (_get_ordered_files (parse_git_status (git_status env) s1)) - 1)))
                (parse_git_status (git_status env) s1))); [done..|].
    apply (cursor_ok_after_parse _ s1 s); try done. unfold len. lia.
Qed.

Ltac key_leaf Hok :=
  unfold mbind, result_bind, mret, result_ret;
  try match goal with
      | |- context [_toggle_stage_current_file ?e ?s] =>
          destruct (toggle_stage_cursor_ok e s Hok) as (?&->&?)
      | |- context [_refresh_status ?r ?s] =>
          destruct (refresh_status_cursor_ok r s Hok) as (?&->&?)
      | |- context [_chunk_stage_current_file ?e ?s] =>
          destruct (chunk_stage_cursor_ok e s Hok) as (?&->&?)
      | |- context [_discard_current_file ?e ?s] =>
          destruct (discard_cursor_ok e s Hok) as (?&->&?)
      | |- context [_toggle_stage_in_diff ?e ?s] =>
          destruct (toggle_in_diff_cursor_ok e s Hok) as (?&->&?)
      | H : ?c < len (_get_ordered_files ?s) |- context [py_index _ ?c] =>
          destruct (cursor_ok_index s Hok H) as (?&->&?)
      end;
  eexists _, _; (split; [reflexivity|]);
  first
    [ assumption
    | by apply stage_all_cursor_ok
    | by apply commit_dialog_cursor_ok
    | by eapply cursor_ok_ext; [| |exact Hok]
    | destruct Hok as [[? ?] ?]; split; [simpl; unfold len in *; lia|done] ].

Lemma handle_list_input_cursor_ok env key s :
  cursor_ok s →
  (key = KEY_NPAGE → files s ≠ [] ∧ 4 ≤ height env) →
  (key = KEY_PPAGE → 4 ≤ height env) →
  ∃ s' b, _handle_list_input env key s = Ok (s', b) ∧ cursor_ok s'.
Proof.
  intros Hok Hnp Hpp. unfold _handle_list_input.
  repeat case_bool_decide; try (by key_leaf Hok).
  all: try (specialize (Hpp ltac:(done)); by key_leaf Hok).
  destruct (Hnp ltac:(done)) as [Hne ?].
  assert (0 < len (files s)) by (unfold len; destruct (files s); simpl; [done|lia]).
  key_leaf Hok.
Qed.

Lemma handle_diff_input_cursor_ok env key s :
  cursor_ok s →
  ∃ s' b, _handle_diff_input env key s = Ok (s', b) ∧ cursor_ok s'.
Proof.
  intros Hok. unfold _handle_diff_input.
  repeat case_bool_decide; by key_leaf Hok.
Qed.

Lemma handle_input_cursor_ok env key s :
  cursor_ok s →
  (mode s = "list" → key = KEY_NPAGE → files s ≠ [] ∧ 4 ≤ height env) →
  (mode s = "list" → key = KEY_PPAGE → 4 ≤ height env) →
  ∃ s' b, handle_input env key s = Ok (s', b) ∧ cursor_ok s'.
Proof.
  intros Hok Hnp Hpp. unfold handle_input.
  case_bool_decide; [by eexists _, _|].
  case_bool_decide; [apply handle_list_input_cursor_ok; auto|].
  case_bool_decide; [by apply handle_diff_input_cursor_ok|].
  by eexists _, _.
Qed.

(** X5. From a state whose cursor is inside the record list (at 0 when the
    list is empty), handling a key never raises and leaves the cursor inside
    the list it leaves; in list mode Page Up needs a terminal of four rows or
    more, and Page Down moreover a list that is not empty. *)
Theorem handle_input_keeps_cursor (env : Env) (key : Z) (s : GitTUI) :
  cursor_ok s →
  (mode s = "list" → key = KEY_NPAGE → files s ≠ [] ∧ 4 ≤ height env) →
  (mode s = "list" → key = KEY_PPAGE → 4 ≤ height env) →
  ∃ s' b, handle_input env key s = Ok (s', b) ∧ cursor_ok s'.
Proof.
  intros Hok Hnp Hpp. unfold handle_input.
  case_bool_decide; [by eexists _, _|].
  case_bool_decide; [apply handle_list_input_cursor_ok; auto|].
  case_bool_decide; [by apply handle_diff_input_cursor_ok|].
  by eexists _, _.
Qed.

Lemma handle_input_keeps_cursor_witness :
  let s := set_cursor_pos 2 (with_staged 3) in
  let env := quiet_env 24 in
  cursor_ok s ∧
  (mode s = "list" → ord " " = KEY_NPAGE → files s ≠ [] ∧ 4 ≤ height env) ∧
  (mode s = "list" → ord " " = KEY_PPAGE → 4 ≤ height env) ∧
  ∃ s' b, handle_input env (ord " ") s = Ok (s', b) ∧ cursor_ok s'.
Proof.
  intros s env.
  assert (H1 : cursor_ok s).
  { split; [by vm_compute|]. apply parse_porcelain_wf. }
  assert (H2 : mode s = "list" → ord " " = KEY_NPAGE →
               files s ≠ [] ∧ 4 ≤ height env) by (intros _ H; by vm_compute in H).
  assert (H3 : mode s = "list" → ord " " = KEY_PPAGE → 4 ≤ height env)
    by (intros _ H; by vm_compute in H).
  split; [exact H1|]. split; [exact H2|]. split; [exact H3|].
  exact (handle_input_keeps_cursor env (ord " ") s H1 H2 H3).
Defined.

(** ** Who touches the watcher's fields *)

Ltac frame_watcher :=
  repeat case_match; unfold same_watcher; simpl;
  unfold parse_git_status, stage_file, unstage_file, discard_changes;
  repeat case_bool_decide; simpl; done.

Lemma refresh_status_watcher r s s' :
  _refresh_status r s = Ok s' → same_watcher s s'.
Proof. unfold _refresh_status. intros H. step_cases H; frame_watcher. Qed.

Lemma toggle_stage_watcher env s s' :
  _toggle_stage_current_file env s = Ok s' → same_watcher s s'.
Proof. unfold _toggle_stage_current_file. intros H. step_cases H; frame_watcher. Qed.

Lemma chunk_stage_watcher env s s' :
  _chunk_stage_current_file env s = Ok s' → same_watcher s s'.
Proof. unfold _chunk_stage_current_file. intros H. step_cases H; frame_watcher. Qed.

Lemma discard_watcher env s s' :
  _discard_current_file env s = Ok s' → same_watcher s s'.
Proof. unfold _discard_current_file. intros H. step_cases H; frame_watcher. Qed.

Lemma toggle_in_diff_watcher env s s' :
  _toggle_stage_in_diff env s = Ok s' → same_watcher s s'.
Proof. unfold _toggle_stage_in_diff. intros H. step_cases H; frame_watcher. Qed.

Lemma stage_all_watcher env s : same_watcher s (_stage_all env s).
Proof. unfold _stage_all. frame_watcher. Qed.

Lemma commit_dialog_watcher env s : same_watcher s (show_commit_dialog env s).
Proof. unfold show_commit_dialog. repeat case_bool_decide; frame_watcher. Qed.

Ltac leaf_watcher :=
  let H := fresh "H" in
  let E := fresh "E" in
  intros H; unfold mbind, result_bind, mret, result_ret in H; simpl in H;
  try (match type of H with
       | context [match ?x with _ => _ end] => destruct x eqn:E
       end);
  simplify_eq;
  first
    [ done
    | apply stage_all_watcher
    | apply commit_dialog_watcher
    | eapply toggle_stage_watcher; eassumption
    | eapply refresh_status_watcher; eassumption
    | eapply chunk_stage_watcher; eassumption
    | eapply discard_watcher; eassumption
    | eapply toggle_in_diff_watcher; eassumption ].

(** X6. No key, in list mode or in diff mode, and no drawing changes the
    watcher's fields: [last_refresh_time] and [events_during_cooldown] are
    written by [_check_watcher] alone, so a refresh asked for with the key R
    does not restart the cooldown. *)
Theorem keys_leave_watcher_alone (env : Env) (key : Z) (s : GitTUI) :
  (∀ s' b, handle_input env key s = Ok (s', b) → same_watcher s s') ∧
  same_watcher s (draw_file_list (height env) s) ∧
  (∀ s', draw_diff_view (height env) s = Ok s' → same_watcher s s').
Proof.
  split_and!.
  - intros s' b. unfold handle_input, _handle_list_input, _handle_diff_input.
    repeat case_bool_decide; leaf_watcher.
  - unfold draw_file_list. by destruct (locate_cursor _ _).
  - intros s' Hdraw. pose proof (draw_diff_view_cases (height env) s) as H.
    rewrite Hdraw in H. by destruct H as [_ ->].
Qed.

(** ** The loop *)

Lemma check_watcher_cursor_ok tk s :
  cursor_ok s → ∃ s' fired, _check_watcher tk s = Ok (s', fired) ∧ cursor_ok s'.
Proof.
  intros Hok. unfold _check_watcher, watcher_refresh.
  destruct (refresh_status_cursor_ok (tick_status tk) s Hok) as (s1&Hrun&Hok1).
  assert (Hfire : ∃ s' fired,
            (_refresh_status (tick_status tk) s ≫= λ s0,
               mret (set_events_during_cooldown false
                       (set_last_refresh_time (after tk) s0), true))
            = Ok (s', fired) ∧ cursor_ok s').
  { rewrite Hrun. eexists _, _. split; [done|]. by apply (cursor_ok_ext s1). }
  destruct (watcher_proc s); simpl; [|by eexists _, _].
  destruct (readable tk), (in_cooldown tk s), (events_during_cooldown s); simpl;
    try done; eexists _, _; (split; [done|]); by apply (cursor_ok_ext s).
Qed.

Lemma loop_turn_cursor_ok env key tk s :
  cursor_ok s →
  key ≠ KEY_NPAGE → (key = KEY_PPAGE → 4 ≤ height env) →
  ∃ s' b, loop_turn env key tk s = Ok (s', b) ∧ cursor_ok s'.
Proof.
  intros Hok Hnp Hpp. unfold loop_turn.
  assert (Hdraw : ∃ s0,
            (if bool_decide (mode s = "list")
             then mret (draw_file_list (height env) s)
             else if bool_decide (mode s = "diff")
                  then draw_diff_view (height env) s
                  else mret s) = Ok s0 ∧ cursor_ok s0).
  { repeat case_bool_decide.
    - eexists. split; [done|].
      apply (cursor_ok_ext s); [apply draw_file_list_files
                               |apply draw_file_list_cursor|done].
    - rewrite draw_diff_view_returns
        by (destruct Hok as [Hc _]; unfold len; lia).
      eexists. split; [done|]. by apply (cursor_ok_ext s).
    - by exists s. }
  destruct Hdraw as (s0&->&Hok0). simpl.
  destruct (handle_input_cursor_ok env key s0 Hok0) as (s1&b&->&Hok1);
    [done|auto|].
  simpl. destruct b; [|by eexists _, _].
  destruct (check_watcher_cursor_ok tk s1 Hok1) as (s2&fired&->&Hok2).
  simpl. by eexists _, _.
Qed.

(** X7. The loop of [run], whatever the commands, the clock and the watcher
    answer: as long as Page Down is not among the keys (and Page Up only comes
    on a terminal of four rows or more), no turn raises [IndexError] and the
    cursor is inside the record list when the loop stops. *)
Theorem run_loop_never_raises (turns : list Turn) (s : GitTUI) :
  cursor_ok s →
  Forall no_page_trouble turns →
  ∃ s' rest, run_loop turns s = Ok (s', rest) ∧ cursor_ok s'.
Proof.
  revert s. induction turns as [|t turns IH]; intros s Hok Hkeys; simpl.
  - by eexists _, _.
  - apply Forall_cons in Hkeys as [[Hnp Hpp] Hrest].
    destruct (loop_turn_cursor_ok (turn_env t) (turn_key t) (turn_tick t) s Hok Hnp Hpp)
      as (s1&b&->&Hok1).
    simpl. destruct b; [by apply IH|by eexists _, _].
Qed.

Lemma run_loop_never_raises_witness :
  let turns :=
    [mkTurn (quiet_env 24) KEY_DOWN (mkTick 1000 true (ok_result "") 1001);
     mkTurn (quiet_env 24) (ord "r") (mkTick 1100 false (ok_result "") 1100);
     mkTurn (quiet_env 24) (ord "q") (mkTick 1200 false (ok_result "") 1200)] in
  cursor_ok watching ∧ Forall no_page_trouble turns ∧
  ∃ s' rest, run_loop turns watching = Ok (s', rest) ∧ cursor_ok s'.
Proof.
  intros turns.
  assert (H1 : cursor_ok watching) by (split; [by vm_compute|constructor]).
  assert (H2 : Forall no_page_trouble turns).
  { repeat (constructor; [split; [by vm_compute|intros H; by vm_compute in H]|]).
    constructor. }
  split; [exact H1|]. split; [exact H2|].
  exact (run_loop_never_raises turns watching H1 H2).
Defined.

(** ** Drawing twice *)

Lemma draw_file_list_eq h s :
  draw_file_list h s = set_scroll_offset (scroll_offset (draw_file_list h s)) s.
Proof. unfold draw_file_list. by destruct (locate_cursor _ _). Qed.

Lemma set_scroll_offset_same s : set_scroll_offset (scroll_offset s) s = s.
Proof. by destruct s. Qed.

(** X8. With at least one visible row and the cursor on a record, the
    second of two drawings in a row always has the cursor's line on screen,
    and a further drawing changes nothing: the frame that loses the cursor on
    an upward scroll is put right by the next one. *)
Theorem second_draw_shows_cursor (h : Z) (s : GitTUI) :
  1 ≤ h - 4 →
  0 ≤ cursor_pos s < len (_get_ordered_files s) →
  let s2 := draw_file_list h (draw_file_list h s) in
  on_screen h s2 (cursor_display_line s2) ∧
  draw_file_list h s2 = s2.
Proof.
  intros Hvh Hc. cbv zeta.
  set (s1 := draw_file_list h s). set (s2 := draw_file_list h s1).
  assert (Hf1 : files s1 = files s) by apply draw_file_list_files.
  assert (Hc1 : cursor_pos s1 = cursor_pos s) by apply draw_file_list_cursor.
  assert (Hvalid1 : 0 ≤ cursor_pos s1 < len (_get_ordered_files s1))
    by (unfold _get_ordered_files; by rewrite Hf1, Hc1).
  unfold _get_ordered_files in Hc.
  assert (Hloc := locate_cursor_valid (files s) (cursor_pos s) Hc).
  destruct (line_of_bounds (files s) (cursor_pos s) Hc) as [Hb Htot].
  assert (Hle : scroll_offset s1 ≤ cursor_display_line s1).
  { unfold cursor_display_line. rewrite Hf1, Hc1, Hloc. simpl.
    subst s1. rewrite draw_file_list_scroll.
    unfold cursor_display_line, cursor_section_start. rewrite Hloc. simpl.
    unfold clamp_scroll, adjust_scroll. repeat case_bool_decide; lia. }
  assert (Hon : on_screen h s2 (cursor_display_line s2))
    by (apply (draw_file_list_contains_cursor h s1); auto).
  split; [done|].
  rewrite (draw_file_list_eq h s2). rewrite <-(set_scroll_offset_same s2) at 3.
  f_equal. rewrite draw_file_list_scroll.
  assert (Hf2 : files s2 = files s1) by apply draw_file_list_files.
  assert (Hrange : 0 ≤ scroll_offset s2 ≤
                   Z.max 0 (len (build_display_lines (files s2)) - (h - 4))).
  { rewrite Hf2. pose proof (draw_file_list_scroll h s1) as Hs2.
    change (draw_file_list h s1) with s2 in Hs2.
    rewrite Hs2. unfold clamp_scroll. lia. }
  unfold on_screen in Hon. clearbody s2. unfold clamp_scroll, adjust_scroll.
  repeat case_bool_decide; lia.
Qed.

Lemma second_draw_shows_cursor_witness :
  let s := set_scroll_offset 22 (set_cursor_pos 20 (with_staged 41)) in
  1 ≤ 24 - 4 ∧
  0 ≤ cursor_pos s < len (_get_ordered_files s) ∧
  on_screen 24 (draw_file_list 24 (draw_file_list 24 s))
    (cursor_display_line (draw_file_list 24 (draw_file_list 24 s))).
Proof.
  intros s.
  assert (H1 : 1 ≤ 24 - 4) by done.
  assert (H2 : 0 ≤ cursor_pos s < len (_get_ordered_files s)) by (by vm_compute).
  split; [exact H1|]. split; [exact H2|].
  exact (proj1 (second_draw_shows_cursor 24 s H1 H2)).
Defined.

(** ** The list view of git-tui.py *)

Lemma GitTuiPy_append_files_fst fs acc :
  (GitTuiPy.append_files fs acc).1 ≠ [] ∨ (acc.1 = [] ∧ fs = []).
Proof.
  unfold GitTuiPy.append_files. revert acc.
  induction fs as [|f fs IH]; intros acc; simpl; [destruct acc as [[|??] ?]; auto|].
  destruct (IH (acc.1 ++ [mkLine (FileLine f) (Some acc.2) None], acc.2 + 1))
    as [?|[Hnil _]]; [by left|]. simpl in Hnil. by destruct (acc.1).
Qed.

Lemma GitTuiPy_add_group_nonempty title blank fs acc :
  acc.1 ≠ [] ∨ fs ≠ [] → (GitTuiPy.add_group title blank fs acc).1 ≠ [].
Proof.
  intros H. unfold GitTuiPy.add_group. destruct fs as [|f fs].
  - by destruct H.
  - destruct (GitTuiPy.append_files (f :: fs) (acc.1 ++ [heading title], acc.2))
      as [dl idx] eqn:E.
    pose proof (GitTuiPy_append_files_fst (f :: fs) (acc.1 ++ [heading title], acc.2))
      as [Hne|[Hnil _]].
    + rewrite E in Hne. simpl in *. destruct blank; [by destruct dl|done].
    + simpl in Hnil. by destruct (acc.1).
Qed.

Lemma GitTuiPy_lines_nonempty fs : GitTuiPy.build_display_lines fs ≠ [].
Proof.
  unfold GitTuiPy.build_display_lines. destruct fs as [|f fs]; [done|].
  set (a1 := GitTuiPy.add_group _ true (staged_files (f :: fs)) _).
  set (a2 := GitTuiPy.add_group _ true (unstaged_files (f :: fs)) a1).
  assert (staged_files (f :: fs) ≠ [] ∨ unstaged_files (f :: fs) ≠ [] ∨
          untracked_files (f :: fs) ≠ []) as Hgroup.
  { unfold staged_files, unstaged_files, untracked_files. rewrite !filter_cons.
    destruct (decide (staged f = true)); [by left|].
    destruct (decide (is_untracked f)); [by right; right|].
    right; left. rewrite decide_True; [done|]. split; [by destruct (staged f)|done]. }
  apply GitTuiPy_add_group_nonempty.
  destruct Hgroup as [?|[?|?]]; [left|left|by right].
  - apply GitTuiPy_add_group_nonempty. left.
    apply GitTuiPy_add_group_nonempty. by right.
  - apply GitTuiPy_add_group_nonempty. by right.
Qed.

(** X9. In git-tui.py, with at least one visible row, the line found for
    the cursor is on screen after [draw_file_list], for every record list,
    cursor and earlier scroll offset. *)
Theorem GitTuiPy_draw_contains_cursor (h : Z) (s : GitTUI) :
  1 ≤ h - 2 →
  let s' := GitTuiPy.draw_file_list h s in
  let line := GitTuiPy.locate_cursor (GitTuiPy.build_display_lines (files s))
                (cursor_pos s) in
  0 ≤ line < len (GitTuiPy.build_display_lines (files s)) ∧
  scroll_offset s' ≤ line ≤ scroll_offset s' + (h - 2) - 1.
Proof.
  intros Hvh s' line.
  assert (Hline : 0 ≤ line < len (GitTuiPy.build_display_lines (files s))).
  { subst line. unfold GitTuiPy.locate_cursor, len.
    pose proof (GitTuiPy_lines_nonempty (files s)) as Hne.
    destruct (list_find _ _) as [[i l]|] eqn:E.
    - apply list_find_Some in E as (Hi&_). apply lookup_lt_Some in Hi. lia.
    - destruct (GitTuiPy.build_display_lines (files s)); [done|simpl; lia]. }
  split; [done|]. subst s'. unfold GitTuiPy.draw_file_list. simpl.
  fold line. unfold clamp_scroll. repeat case_bool_decide; lia.
Qed.

Lemma GitTuiPy_draw_contains_cursor_witness :
  let s := set_scroll_offset 30 (set_cursor_pos 20 (with_staged 41)) in
  1 ≤ 24 - 2 ∧
  scroll_offset (GitTuiPy.draw_file_list 24 s) ≤ 21
    ≤ scroll_offset (GitTuiPy.draw_file_list 24 s) + (24 - 2) - 1.
Proof.
  intros s. assert (H1 : 1 ≤ 24 - 2) by done. split; [exact H1|].
  exact (proj2 (GitTuiPy_draw_contains_cursor 24 s H1)).
Defined.

(** ** The diff of a file *)

(** X10. [get_file_diff] never returns an empty list: the diff view always
    has a line to show, be it content, a note or an error; for an untracked
    file the first line names the file. *)
Theorem get_file_diff_nonempty (env : Env) (file : GitFile) :
  get_file_diff env file ≠ [] ∧
  (status file = "untracked" →
   head (get_file_diff env file) = Some ("New file: " +:+ path file) ∨
   head (get_file_diff env file) = Some ("Cannot read file: " +:+ path file)).
Proof.
  unfold get_file_diff. split.
  - case_bool_decide; [by destruct (read_file env)|].
    case_bool_decide; [done|]. case_bool_decide; [|done].
    unfold py_split. intros Hnil%fmap_nil_inv. by apply split_go_nonempty in Hnil.
  - intros Hu. rewrite bool_decide_eq_true_2 by done.
    destruct (read_file env); auto.
Qed.

(** ** Writing on the screen *)

Lemma length_text l : String.length (text l) = length l.
Proof. induction l; simpl; auto. Qed.




(** Three tabs on a screen of ten columns: nine characters are kept, that
    is all three tabs, and twelve spaces are passed to [addstr]. *)
Example safe_addstr_tabs_overflow :
  _safe_addstr (log_addstr 24 10) 24 10 0 0 (text [tab; tab; tab]) []
    = [(0, 0, "            ")].
Proof. vm_compute. reflexivity. Qed.

(** On a screen of 13 columns the box of [show_confirm_dialog] is 9 wide
    and starts at column 2; the title "Discard changes?" of
    [_discard_current_file], 16 characters, is centred at column -2.  The
    call passes the guards, curses raises, nothing is drawn. *)
Example safe_addstr_left_of_screen :
  let dw := dialog_width "Discard changes?" "a.txt" 13 in
  let col := centred_col (dialog_start_x 13 dw) dw "Discard changes?" in
  col = -2 ∧
  (∀ r c u sc, c < 0 → log_addstr 24 13 r c u sc = (sc, true)) ∧
  _safe_addstr (log_addstr 24 13) 24 13 11 col "Discard changes?" [] = [].
Proof.
  split_and!; [by vm_compute| |by vm_compute].
  intros r c u sc Hc. unfold log_addstr. by rewrite bool_decide_eq_false_2 by lia.
Qed.

(** ** Committing *)

(** X12. [show_commit_dialog] touches the record list and the cursor only
    when the commit is made (something staged, a message that is not empty,
    [git commit] returning 0): then the status is parsed again and the cursor
    goes to 0; in every other case both are as before. *)
Theorem commit_dialog_effect (env : Env) (s : GitTUI) :
  (commit_made env s →
   files (show_commit_dialog env s) = files (parse_git_status (git_status env) s) ∧
   cursor_pos (show_commit_dialog env s) = 0) ∧
  (¬ commit_made env s →
   files (show_commit_dialog env s) = files s ∧
   cursor_pos (show_commit_dialog env s) = cursor_pos s ∧
   status_message (show_commit_dialog env s) ≠ "Commit successful!").
Proof.
  unfold commit_made, show_commit_dialog. split.
  - intros (Hst&(msg&Hmsg&Hne)&Hrc).
    destruct (staged_files (files s)); [done|]. rewrite Hmsg.
    rewrite bool_decide_eq_false_2 by done. rewrite bool_decide_eq_true_2 by done.
    simpl. unfold parse_git_status. by case_bool_decide.
  - intros Hno. destruct (staged_files (files s)) as [|f l]; [done|].
    destruct (editor env) as [msg|e] eqn:He; [|by destruct e].
    case_bool_decide as Hmsg; [done|]. case_bool_decide as Hrc; [|done].
    destruct Hno. split_and!; [done| |done]. by exists msg.
Qed.

(** ** The watcher when it is not running *)



(** ** Flattening twice *)

Lemma filter_all (P : GitFile → Prop) `{!∀ f, Decision (P f)} (l : list GitFile) :
  Forall P l → filter P l = l.
Proof.
  induction 1 as [|x l ? _ IH]; [done|]. by rewrite filter_cons_True, IH.
Qed.

Lemma filter_none (P : GitFile → Prop) `{!∀ f, Decision (P f)} (l : list GitFile) :
  Forall (λ f, ¬ P f) l → filter P l = [].
Proof.
  induction 1 as [|x l ? _ IH]; [done|]. by rewrite filter_cons_False.
Qed.

Lemma filter_Forall_both (P Q : GitFile → Prop) `{!∀ f, Decision (P f)}
    (l : list GitFile) :
  Forall Q l → Forall (λ f, P f ∧ Q f) (filter P l).
Proof.
  intros HQ. apply Forall_forall. intros f [? Hf]%list_elem_of_filter.
  rewrite Forall_forall in HQ. auto.
Qed.

(** X14. On a list the parser can have built, flattening is idempotent:
    the flattened list is already in the order of its own flattening. *)
Theorem ordered_idempotent (fs : list GitFile) :
  Forall no_staged_untracked fs → ordered (ordered fs) = ordered fs.
Proof.
  intros Hwf.
  pose proof (filter_Forall_both (λ f, staged f = true) _ fs Hwf) as Ha.
  pose proof (filter_Forall_both (λ f, staged f = false ∧ ¬ is_untracked f) _ fs Hwf)
    as Hb.
  pose proof (filter_Forall_both is_untracked _ fs Hwf) as Hc.
  fold (staged_files fs) in Ha. fold (unstaged_files fs) in Hb.
  fold (untracked_files fs) in Hc.
  unfold ordered at 1. unfold staged_files at 1, unstaged_files at 1,
    untracked_files at 1. unfold ordered. rewrite !filter_app.
  rewrite (filter_all _ (staged_files fs))
    by (eapply Forall_impl; [exact Ha|]; by intros ? [? _]).
  rewrite (filter_none (λ f, staged f = true) (unstaged_files fs))
    by (eapply Forall_impl; [exact Hb|]; intros ? [[? _] _]; congruence).
  rewrite (filter_none (λ f, staged f = true) (untracked_files fs))
    by (eapply Forall_impl; [exact Hc|]; unfold no_staged_untracked, is_untracked;
        intros ? [? ?]; tauto).
  rewrite (filter_none _ (staged_files fs))
    by (eapply Forall_impl; [exact Ha|]; intros ? [? _] [? _]; congruence).
  rewrite (filter_all _ (unstaged_files fs))
    by (eapply Forall_impl; [exact Hb|]; by intros ? [? _]).
  rewrite (filter_none _ (untracked_files fs))
    by (eapply Forall_impl; [exact Hc|]; intros ? [? _] [_ ?]; done).
  rewrite (filter_none is_untracked (staged_files fs))
    by (eapply Forall_impl; [exact Ha|]; unfold no_staged_untracked, is_untracked;
        intros ? [? ?]; tauto).
  rewrite (filter_none is_untracked (unstaged_files fs))
    by (eapply Forall_impl; [exact Hb|]; by intros ? [[_ ?] _]).
  rewrite (filter_all is_untracked (untracked_files fs))
    by (eapply Forall_impl; [exact Hc|]; by intros ? [? _]).
  by rewrite !app_nil_r.
Qed.

Lemma ordered_idempotent_witness :
  Forall no_staged_untracked (files (with_staged 3)) ∧
  ordered (ordered (files (with_staged 3))) = ordered (files (with_staged 3)).
Proof.
  assert (H : Forall no_staged_untracked (files (with_staged 3)))
    by apply parse_porcelain_wf.
  split; [exact H|]. exact (ordered_idempotent _ H).
Defined.

(** ** Toggling from the diff view *)

(** X15. Space in the diff view, with the cursor on a record: the command
    runs, the status is parsed again, and the cursor follows the same file to
    its other side, the first record with the same path and the opposite
    staged flag; its diff is loaded and the scroll value reset.  When no such
    record exists the view goes back to the list with the cursor clamped, and
    the diff content is left as it was. *)
Theorem toggle_in_diff_follows_file (env : Env) (s : GitTUI) :
  0 ≤ cursor_pos s < len (_get_ordered_files s) →
  ∃ s' file,
    _toggle_stage_in_diff env s = Ok s' ∧
    _get_ordered_files s !! Z.to_nat (cursor_pos s) = Some file ∧
    let new := _get_ordered_files s' in
    (∀ (i : nat) g,
       first_with_path_flag (path file) (negb (staged file)) new i →
       new !! i = Some g →
       cursor_pos s' = Z.of_nat i ∧ mode s' = mode s ∧
       diff_content s' = get_file_diff env g ∧ diff_scroll s' = 0) ∧
    ((∀ g, g ∈ new → ¬ (path g = path file ∧ staged g = negb (staged file))) →
     mode s' = "list" ∧
     cursor_pos s' = Z.max 0 (Z.min (cursor_pos s) (len new - 1)) ∧
     diff_content s' = diff_content s).
Proof.
  intros Hc.
  destruct (py_index_Ok (_get_ordered_files s) (cursor_pos s) Hc) as (file&Hidx&Hfile).
  unfold _toggle_stage_in_diff.
  rewrite bool_decide_eq_false_2 by lia. rewrite Hidx. simpl.
  set (s1 := if staged file then unstage_file (git_reset env) file s
             else stage_file (git_add env) file s).
  assert (cursor_pos s1 = cursor_pos s ∧ mode s1 = mode s ∧
          diff_content s1 = diff_content s) as (Hc1&Hm1&Hd1).
  { subst s1. unfold unstage_file, stage_file.
    destruct (staged file); by case_bool_decide. }
  set (s2 := parse_git_status (git_status env) s1).
  assert (cursor_pos s2 = cursor_pos s ∧ mode s2 = mode s ∧
          diff_content s2 = diff_content s) as (Hc2&Hm2&Hd2).
  { subst s2. unfold parse_git_status. by case_bool_decide. }
  destruct (list_find _ (_get_ordered_files s2)) as [[i f]|] eqn:E.
  - apply list_find_Some in E as (Hi&[Hp Hs]&Hleast).
    eexists _, file. split; [done|]. split; [done|].
    unfold _get_ordered_files in *. simpl. split.
    + intros i' g [(g'&Hg'&Hp'&Hs') Hleast'] Hg.
      assert (i' = i) as ->.
      { destruct (Nat.lt_trichotomy i' i) as [Hlt|[?|Hgt]]; [|done|].
        - by destruct (Hleast _ _ Hg' Hlt).
        - by destruct (Hleast' _ _ Hi Hgt). }
      by simplify_eq.
    + intros Hnone. apply list_elem_of_lookup_2 in Hi. by destruct (Hnone f Hi).
  - apply list_find_None in E. eexists _, file. split; [done|]. split; [done|].
    unfold _get_ordered_files in *. simpl. split.
    + intros i' g [(g'&Hg'&Hp'&Hs') _] _.
      apply list_elem_of_lookup_2 in Hg'. rewrite Forall_forall in E.
      by destruct (E g' Hg').
    + intros _. by rewrite Hc2.
Qed.

Lemma toggle_in_diff_follows_file_witness :
  let s := set_mode "diff" (set_cursor_pos 0 (with_staged 3)) in
  0 ≤ cursor_pos s < len (_get_ordered_files s) ∧
  ∃ s', _toggle_stage_in_diff (quiet_env 24) s = Ok s'.
Proof.
  intros s.
  assert (H : 0 ≤ cursor_pos s < len (_get_ordered_files s)) by (by vm_compute).
  split; [exact H|].
  destruct (toggle_in_diff_follows_file (quiet_env 24) s H) as (s'&_&Hrun&_).
  exists s'. exact Hrun.
Defined.

(** ** One file line *)

(** X16. The text drawn for a parsed record starts with the marker "> " on
    the cursor's line and two spaces elsewhere, then the status name padded
    to ten columns and a space, so that every path starts in column 13. *)
Theorem file_line_path_column (out : string) (cursor file_index : Z) (f : GitFile) :
  f ∈ parse_porcelain out →
  take 2 (chars (file_line_text cursor file_index f)) =
    (if bool_decide (file_index = cursor) then chars "> " else chars "  ") ∧
  drop 13 (chars (file_line_text cursor file_index f)) = chars (path f) ∧
  String.length (file_line_text cursor file_index f) =
    (13 + String.length (path f))%nat.
Proof.
  intros Hf.
  pose proof (parse_porcelain_status_names out) as Hnames.
  rewrite Forall_forall in Hnames. specialize (Hnames f Hf).
  unfold file_line_text. destruct f as [st p sg]. simpl in *.
  unfold status_names in Hnames. rewrite !elem_of_cons, elem_of_nil in Hnames.
  destruct Hnames as [-> | [-> | [-> | [-> | [-> | [-> | [-> | []]]]]]]];
    case_bool_decide; done.
Qed.

Lemma file_line_path_column_witness :
  let f := mkGitFile "modified" "f1" true in
  f ∈ parse_porcelain (staged_porcelain 3) ∧
  drop 13 (chars (file_line_text 0 1 f)) = chars (path f).
Proof.
  intros f.
  assert (H : f ∈ parse_porcelain (staged_porcelain 3))
    by (vm_compute; apply list_elem_of_further, list_elem_of_here).
  split; [exact H|].
  exact (proj1 (proj2 (file_line_path_column _ 0 1 f H))).
Defined.

(** ** The toggle of git-tui.py *)

(** X17. In git-tui.py Space keeps the cursor on the toggled file: after
    the command and the new parse the cursor is on the first record with the
    path of the file that was under it, whatever its staged flag; when the
    path is gone the cursor is clamped into the new list. *)
Theorem GitTuiPy_toggle_follows_path (env : Env) (s : GitTUI) :
  0 ≤ cursor_pos s < len (_get_ordered_files s) →
  ∃ s' file,
    GitTuiPyInput._toggle_stage_current_file env s = Ok s' ∧
    _get_ordered_files s !! Z.to_nat (cursor_pos s) = Some file ∧
    files s' =
      (if bool_decide (returncode (git_status env) = 0)
       then parse_porcelain (stdout (git_status env)) else files s) ∧
    let new := _get_ordered_files s' in
    ((∃ g, g ∈ new ∧ path g = path file) →
     ∃ i : nat, first_with_path (path file) new i ∧ cursor_pos s' = Z.of_nat i) ∧
    ((∀ g, g ∈ new → path g ≠ path file) →
     cursor_pos s' = Z.max 0 (Z.min (cursor_pos s) (len new - 1))).
Proof.
  intros Hc.
  destruct (py_index_Ok (_get_ordered_files s) (cursor_pos s) Hc) as (file&Hidx&Hfile).
  unfold GitTuiPyInput._toggle_stage_current_file.
  rewrite bool_decide_eq_false_2 by lia. rewrite Hidx. simpl.
  set (s1 := if staged file then unstage_file (git_reset env) file s
             else stage_file (git_add env) file s).
  assert (cursor_pos s1 = cursor_pos s ∧ files s1 = files s) as (Hc1&Hf1).
  { subst s1. unfold unstage_file, stage_file.
    destruct (staged file); by case_bool_decide. }
  set (s2 := parse_git_status (git_status env) s1).
  assert (Hc2 : cursor_pos s2 = cursor_pos s)
    by (subst s2; by rewrite parse_git_status_cursor).
  assert (Hf2 : files s2 = if bool_decide (returncode (git_status env) = 0)
                           then parse_porcelain (stdout (git_status env))
                           else files s).
  { subst s2. by rewrite parse_git_status_files, Hf1. }
  destruct (list_find _ (_get_ordered_files s2)) as [[i f]|] eqn:E.
  - apply list_find_Some in E as (Hi&Hp&Hleast).
    eexists _, file. split; [done|]. split; [done|].
    unfold _get_ordered_files in *. simpl. split; [done|]. split.
    + intros _. exists i. split; [|done]. split; [by exists f|].
      intros j g Hg Hlt. by apply (Hleast j g).
    + intros Hnone. apply list_elem_of_lookup_2 in Hi. by destruct (Hnone f Hi).
  - apply list_find_None in E. rewrite Forall_forall in E.
    eexists _, file. split; [done|]. split; [done|].
    unfold _get_ordered_files in *. simpl. split; [done|]. split.
    + intros (g&Hg&Hp). by destruct (E g Hg).
    + intros _. by rewrite Hc2.
Qed.

Lemma GitTuiPy_toggle_follows_path_witness :
  let s := set_cursor_pos 0 (with_staged 3) in
  0 ≤ cursor_pos s < len (_get_ordered_files s) ∧
  ∃ s', GitTuiPyInput._toggle_stage_current_file (quiet_env 24) s = Ok s'.
Proof.
  intros s.
  assert (H : 0 ≤ cursor_pos s < len (_get_ordered_files s)) by (by vm_compute).
  split; [exact H|].
  destruct (GitTuiPy_toggle_follows_path (quiet_env 24) s H) as (s'&_&Hrun&_).
  exists s'. exact Hrun.
Defined.

(** ** How much is drawn *)

(** X18. After [draw_file_list] the rows of the list view are filled as
    far as there are display lines: [min visible_height total] lines are
    drawn, starting at the scroll offset, so no row stays empty while lines
    are hidden above. *)
Theorem list_view_is_filled (h : Z) (s : GitTUI) :
  0 ≤ h - 4 →
  let s' := draw_file_list h s in
  let lines := build_display_lines (files s) in
  list_rows h s' =
    take (Z.to_nat (h - 4)) (drop (Z.to_nat (scroll_offset s')) lines) ∧
  len (list_rows h s') = Z.min (h - 4) (len lines).
Proof.
  intros Hvh. cbv zeta.
  set (lines := build_display_lines (files s)).
  pose proof (draw_file_list_scroll h s) as Hs'. fold lines in Hs'.
  set (s' := draw_file_list h s) in *.
  assert (Hrange : 0 ≤ scroll_offset s' ≤ Z.max 0 (len lines - (h - 4)))
    by (rewrite Hs'; unfold clamp_scroll; lia).
  assert (Hrows : list_rows h s' =
            take (Z.to_nat (h - 4)) (drop (Z.to_nat (scroll_offset s')) lines)).
  { unfold list_rows, py_slice_from, slice_bound.
    replace (files s') with (files s) by (symmetry; apply draw_file_list_files).
    fold lines. rewrite bool_decide_eq_false_2 by lia.
    destruct (decide (scroll_offset s' ≤ len lines)).
    - by rewrite Z.min_l by lia.
    - rewrite Z.min_r by lia. unfold len in *.
      rewrite !drop_ge by lia. done. }
  split; [done|]. rewrite Hrows. unfold len in *.
  rewrite length_take, length_drop. lia.
Qed.

Lemma list_view_is_filled_witness :
  0 ≤ 24 - 4 ∧
  len (list_rows 24 (draw_file_list 24 (set_scroll_offset 40 (with_staged 41)))) = 20.
Proof.
  assert (H : 0 ≤ 24 - 4) by done. split; [exact H|].
  rewrite (proj2 (list_view_is_filled 24 (set_scroll_offset 40 (with_staged 41)) H)).
  by vm_compute.
Defined.



(** ** Keys that undo each other *)

Lemma elem_of_3 (x a b c : Z) : x ∈ [a; b; c] → x = a ∨ x = b ∨ x = c.
Proof. rewrite !elem_of_cons, elem_of_nil. tauto. Qed.

Lemma handle_input_open_diff env key s file :
  mode s = "list" →
  key ∈ [ord "d"; ord "D"; ord "010"; KEY_ENTER] →
  0 ≤ cursor_pos s < len (files s) →
  _get_ordered_files s !! Z.to_nat (cursor_pos s) = Some file →
  handle_input env key s =
    Ok (set_status_message ""
          (set_mode "diff"
             (set_diff_scroll 0 (set_diff_content (get_file_diff env file) s))),
        true).
Proof.
  intros Hmode Hkey Hc Hfile.
  pose proof (lookup_lt_Some _ _ _ Hfile) as Hlt.
  destruct (py_index_Ok (_get_ordered_files s) (cursor_pos s)) as (f&Hidx&Hf);
    [unfold len; lia|].
  assert (f = file) as -> by congruence.
  unfold handle_input.
  rewrite (bool_decide_eq_true_2 (mode s = "list")) by done.
  destruct (elem_of_4 _ _ _ _ _ Hkey) as [-> | [-> | [-> | ->]]];
    (replace (bool_decide (_ = -1)) with false by reflexivity);
    unfold _handle_list_input;
    rewrite (bool_decide_eq_true_2 (cursor_pos s < len (files s))) by lia;
    rewrite (bool_decide_eq_true_2 (cursor_pos s < len (_get_ordered_files s)))
      by (unfold len; lia);
    rewrite Hidx; reflexivity.
Qed.

(** X20. Opening the diff of the selected file (D or Enter) and leaving it
    again (Q or Escape) is a round trip for the list: mode, records, cursor,
    scroll offset and the watcher's fields are as before; only the diff
    buffer and the status message have changed. *)
Theorem open_and_close_diff (env env' : Env) (key key' : Z) (s : GitTUI) :
  mode s = "list" →
  key ∈ [ord "d"; ord "D"; ord "010"; KEY_ENTER] →
  key' ∈ [ord "q"; ord "Q"; 27] →
  0 ≤ cursor_pos s < len (files s) →
  cursor_pos s < len (_get_ordered_files s) →
  ∃ s1 s2,
    handle_input env key s = Ok (s1, true) ∧
    mode s1 = "diff" ∧
    handle_input env' key' s1 = Ok (s2, true) ∧
    mode s2 = "list" ∧ files s2 = files s ∧ cursor_pos s2 = cursor_pos s ∧
    scroll_offset s2 = scroll_offset s ∧ same_watcher s s2.
Proof.
  intros Hmode Hkey Hkey' Hc Hlt.
  destruct (lookup_lt_is_Some_2 (_get_ordered_files s) (Z.to_nat (cursor_pos s)))
    as [file Hfile]; [unfold len in Hlt; lia|].
  rewrite (handle_input_open_diff env key s file Hmode Hkey Hc Hfile).
  eexists _, _. split; [done|]. split; [done|].
  destruct (elem_of_3 _ _ _ _ Hkey') as [-> | [-> | ->]]; by split.
Qed.

Lemma open_and_close_diff_witness :
  let s := set_cursor_pos 1 (with_staged 3) in
  mode s = "list" ∧
  ord "d" ∈ [ord "d"; ord "D"; ord "010"; KEY_ENTER] ∧
  ord "q" ∈ [ord "q"; ord "Q"; 27] ∧
  0 ≤ cursor_pos s < len (files s) ∧
  cursor_pos s < len (_get_ordered_files s) ∧
  ∃ s1 s2,
    handle_input (quiet_env 24) (ord "d") s = Ok (s1, true) ∧
    mode s1 = "diff" ∧
    handle_input (quiet_env 24) (ord "q") s1 = Ok (s2, true) ∧
    mode s2 = "list" ∧ files s2 = files s ∧ cursor_pos s2 = cursor_pos s ∧
    scroll_offset s2 = scroll_offset s ∧ same_watcher s s2.
Proof.
  intros s.
  assert (H1 : mode s = "list") by reflexivity.
  assert (H2 : ord "d" ∈ [ord "d"; ord "D"; ord "010"; KEY_ENTER])
    by apply list_elem_of_here.
  assert (H3 : ord "q" ∈ [ord "q"; ord "Q"; 27]) by apply list_elem_of_here.
  assert (H4 : 0 ≤ cursor_pos s < len (files s)) by (by vm_compute).
  assert (H5 : cursor_pos s < len (_get_ordered_files s)) by (by vm_compute).
  split; [exact H1|]. split; [exact H2|]. split; [exact H3|].
  split; [exact H4|]. split; [exact H5|].
  exact (open_and_close_diff (quiet_env 24) (quiet_env 24) _ _ s H1 H2 H3 H4 H5).
Defined.

(** X21. In list mode Down followed by Up, from a cursor above the last
    record, and Up followed by Down, from a cursor below the first record,
    bring the cursor back and leave the records alone. *)
Theorem down_up_round_trip (env env' : Env) (s : GitTUI) :
  mode s = "list" →
  (0 ≤ cursor_pos s < len (files s) - 1 →
   ∃ s1 s2,
     handle_input env KEY_DOWN s = Ok (s1, true) ∧
     cursor_pos s1 = cursor_pos s + 1 ∧
     handle_input env' KEY_UP s1 = Ok (s2, true) ∧
     cursor_pos s2 = cursor_pos s ∧ files s2 = files s) ∧
  (0 < cursor_pos s ≤ len (files s) - 1 →
   ∃ s1 s2,
     handle_input env KEY_UP s = Ok (s1, true) ∧
     cursor_pos s1 = cursor_pos s - 1 ∧
     handle_input env' KEY_DOWN s1 = Ok (s2, true) ∧
     cursor_pos s2 = cursor_pos s ∧ files s2 = files s).
Proof.
  intros Hmode.
  assert (Hdown : ∀ e t, mode t = "list" → handle_input e KEY_DOWN t =
            if bool_decide (cursor_pos t < len (files t) - 1)
            then Ok (set_status_message "" (set_cursor_pos (cursor_pos t + 1) t), true)
            else Ok (t, true)).
  { intros e t Ht. unfold handle_input. rewrite (bool_decide_eq_true_2 _ Ht).
    reflexivity. }
  assert (Hup : ∀ e t, mode t = "list" → handle_input e KEY_UP t =
            if bool_decide (cursor_pos t > 0)
            then Ok (set_status_message "" (set_cursor_pos (cursor_pos t - 1) t), true)
            else Ok (t, true)).
  { intros e t Ht. unfold handle_input. rewrite (bool_decide_eq_true_2 _ Ht).
    reflexivity. }
  split; intros Hc.
  - rewrite (Hdown env s Hmode), bool_decide_eq_true_2 by lia.
    eexists _, _. split; [done|]. split; [done|].
    rewrite Hup by done. simpl. rewrite bool_decide_eq_true_2 by lia.
    split; [done|]. simpl. split; [lia|done].
  - rewrite (Hup env s Hmode), bool_decide_eq_true_2 by lia.
    eexists _, _. split; [done|]. split; [done|].
    rewrite Hdown by done. simpl. rewrite bool_decide_eq_true_2 by lia.
    split; [done|]. simpl. split; [lia|done].
Qed.

Lemma down_up_round_trip_witness :
  let s := set_cursor_pos 1 (with_staged 3) in
  mode s = "list" ∧ 0 ≤ cursor_pos s < len (files s) - 1 ∧
  ∃ s1 s2,
    handle_input (quiet_env 24) KEY_DOWN s = Ok (s1, true) ∧
    cursor_pos s1 = cursor_pos s + 1 ∧
    handle_input (quiet_env 24) KEY_UP s1 = Ok (s2, true) ∧
    cursor_pos s2 = cursor_pos s ∧ files s2 = files s.
Proof.
  intros s.
  assert (H1 : mode s = "list") by reflexivity.
  assert (H2 : 0 ≤ cursor_pos s < len (files s) - 1) by (by vm_compute).
  split; [exact H1|]. split; [exact H2|].
  exact (proj1 (down_up_round_trip (quiet_env 24) (quiet_env 24) s H1) H2).
Defined.

(** ** The confirmation dialog *)

Lemma length_string_app a b :
  String.length (a +:+ b) = (String.length a + String.length b)%nat.
Proof. induction a as [|c a IH]; [done|]. cbn. by rewrite <-IH. Qed.

(** X22. In the confirmation dialog, when the box is at least 8 columns
    wide, the file name that is shown, cut to "..." and its tail if need be,
    lies inside the box with two columns to spare on either side, and the box
    lies inside the screen. *)
Theorem confirm_dialog_name_fits (title filename : string) (width : Z) :
  let dw := dialog_width title filename width in
  let start_x := dialog_start_x width dw in
  let name := display_name dw filename in
  8 ≤ dw →
  slen name ≤ dw - 4 ∧
  2 ≤ start_x ∧ start_x + dw ≤ width - 2 ∧
  start_x + 2 ≤ centred_col start_x dw name ∧
  centred_col start_x dw name + slen name ≤ start_x + dw - 2.
Proof.
  intros dw start_x name Hdw.
  assert (Hw : dw ≤ width - 4) by (subst dw; unfold dialog_width; lia).
  assert (Hname : slen name ≤ dw - 4).
  { subst name. unfold display_name. case_bool_decide; [lia|].
    unfold slen. rewrite length_string_app, length_text. simpl String.length.
    unfold py_slice_from, slice_bound, len.
    rewrite bool_decide_eq_true_2 by lia. rewrite length_drop. lia. }
  assert (0 ≤ slen name) by (unfold slen; lia).
  subst start_x. unfold centred_col, dialog_start_x.
  pose proof (Z.div_mod (width - dw) 2 ltac:(lia)).
  pose proof (Z.mod_pos_bound (width - dw) 2 ltac:(lia)).
  pose proof (Z.div_mod (dw - slen name) 2 ltac:(lia)).
  pose proof (Z.mod_pos_bound (dw - slen name) 2 ltac:(lia)).
  split_and!; lia.
Qed.

Lemma confirm_dialog_name_fits_witness :
  8 ≤ dialog_width "Discard changes?" "src/a/very/long/path/to/some/file.txt" 30 ∧
  slen (display_name
          (dialog_width "Discard changes?" "src/a/very/long/path/to/some/file.txt" 30)
          "src/a/very/long/path/to/some/file.txt")
  ≤ dialog_width "Discard changes?" "src/a/very/long/path/to/some/file.txt" 30 - 4.
Proof.
  assert (H : 8 ≤ dialog_width "Discard changes?"
                   "src/a/very/long/path/to/some/file.txt" 30) by (by vm_compute).
  split; [exact H|].
  exact (proj1 (confirm_dialog_name_fits "Discard changes?"
                  "src/a/very/long/path/to/some/file.txt" 30 H)).
Defined.

Example display_name_cut :
  display_name 26 "src/a/very/long/path/to/some/file.txt" =
  "...th/to/some/file.txt".
Proof. vm_compute. reflexivity. Qed.

Example display_name_narrow_box :
  display_name 7 "abcdefgh" = "...abcdefgh".
Proof. vm_compute. reflexivity. Qed.
